(** * plotting/common.py: data containers and normalisation for the
      Volvo bluff-body LES plots

    A shallow embedding of [plotting/common.py].

    - numpy's [float64] entries are Rocq's primitive binary64 floats, so the
      arithmetic of [normalize] is evaluated bit for bit;
    - a two-dimensional array is its shape together with its rows;
    - a raised exception is the [Raise] branch of [result]; every failure
      aborts the run, so no state is kept after one; [assert] statements
      are enabled;
    - in-place updates of [self.data] and [self.base_path] are explicit
      state passing;
    - [os.path] is [posixpath]; the working directory, the script directory
      and the directories of the file system are read from an environment;
    - a colour returned by a matplotlib colour map is identified by the map
      and the index into its table. *)

From Stdlib Require Import ZArith String Ascii PrimFloat Uint63.
From stdpp Require Import base option list sets strings.

Local Open Scope string_scope.
Local Open Scope float_scope.

(* Decimal literals denote the nearest binary64 value, as in Python. *)
#[local] Set Warnings "-inexact-float".

(** ** Exceptions *)

Inductive exception : Type :=
| AssertionError (msg : string)
| IndexError
| ValueError
| TypeError
| Exception (msg : string).

Inductive result (A : Type) : Type :=
| Ok (a : A)
| Raise (e : exception).
Arguments Ok {A} a.
Arguments Raise {A} e.

(** [result] is an error monad; [x ← m; k] runs [k] unless [m] raised. *)
#[global] Instance result_ret : MRet result := fun A a => Ok a.
#[global] Instance result_bind : MBind result := fun A B k m =>
  match m with
  | Ok a => k a
  | Raise e => Raise e
  end.

(** ** Python scalars and strings *)

(** The attributes of [dimensions] are Python floats, except [z_flip] (and
    the [getattr] defaults), which are Python ints. *)
Inductive value : Type :=
| VFloat (f : float)
| VInt (z : Z).

(** An int operand of an in-place [float64] operation is converted to
    [float64] by numpy. *)
Definition float_of_Z (z : Z) : float :=
  match z with
  | Z0 => 0
  | Zpos _ => of_uint63 (Uint63.of_Z z)
  | Zneg p => - of_uint63 (Uint63.of_Z (Zpos p))
  end.

Definition to_float (x : value) : float :=
  match x with
  | VFloat f => f
  | VInt z => float_of_Z z
  end.

(** [sub in s] on strings. *)
Fixpoint str_contains (sub s : string) : bool :=
  String.prefix sub s
  || match s with
     | EmptyString => false
     | String _ s' => str_contains sub s'
     end.

(** [s[-1]]: the last character, [IndexError] on the empty string. *)
Fixpoint str_last (s : string) : result string :=
  match s with
  | EmptyString => Raise IndexError
  | String c EmptyString => Ok (String c EmptyString)
  | String _ s' => str_last s'
  end.

(** ** class dimensions *)

Record dimensions : Type := {
  D : float;
  height : float;
  width : float;
  Ubulk : float;
  trailing_edge : float;
  z_offset : float;
  y_offset : float;
  z_flip : Z
}.

(** [dimensions.__init__]; [/] is true division ([from __future__ import
    division]), so [40 / 1000] is the float quotient. *)
Definition dimensions_init (reacting : bool) : dimensions :=
  let D := float_of_Z 40 / float_of_Z 1000 in
  let height := float_of_Z 3 * D in
  let width := float_of_Z 2 * D in
  let Ubulk := if negb reacting then 16.6 else 17.6 in
  let trailing_edge := float_of_Z (-200) / float_of_Z 1000 in
  let z_offset := trailing_edge in
  let y_offset := height / float_of_Z 2 in
  {| D := D; height := height; width := width; Ubulk := Ubulk;
     trailing_edge := trailing_edge; z_offset := z_offset;
     y_offset := y_offset; z_flip := (-1)%Z |}.

(** [getattr(dims, attr, default)] over the instance attributes set by
    [__init__]. *)
Definition getattr (dims : dimensions) (attr : string) (default : value) : value :=
  if decide (attr = "D") then VFloat (D dims)
  else if decide (attr = "height") then VFloat (height dims)
  else if decide (attr = "width") then VFloat (width dims)
  else if decide (attr = "Ubulk") then VFloat (Ubulk dims)
  else if decide (attr = "trailing_edge") then VFloat (trailing_edge dims)
  else if decide (attr = "z_offset") then VFloat (z_offset dims)
  else if decide (attr = "y_offset") then VFloat (y_offset dims)
  else if decide (attr = "z_flip") then VInt (z_flip dims)
  else default.

(** ** Two-dimensional float64 arrays *)

Record ndarray : Type := {
  shape0 : nat;
  shape1 : nat;
  rows : list (list float)
}.

(** The rows of an array agree with its shape. *)
Definition ndarray_wf (a : ndarray) : Prop :=
  length (rows a) = shape0 a /\ Forall (fun row => length row = shape1 a) (rows a).

(** [a[r, i]] for in-range natural indices. *)
Definition entry (a : ndarray) (r i : nat) : option float :=
  row ← rows a !! r; row !! i.

(** [a[:, i] op= x]: every entry of column [i] is replaced by [f] of
    itself; [IndexError] when the array has no column [i]. *)
Definition col_update (f : float -> float) (i : nat) (a : ndarray) : result ndarray :=
  if decide (i < shape1 a)%nat then
    Ok {| shape0 := shape0 a; shape1 := shape1 a;
          rows := alter f i <$> rows a |}
  else Raise IndexError.

Definition isub_col (i : nat) (x : value) : ndarray -> result ndarray :=
  col_update (fun v => v - to_float x) i.
Definition imul_col (i : nat) (x : value) : ndarray -> result ndarray :=
  col_update (fun v => v * to_float x) i.
Definition idiv_col (i : nat) (x : value) : ndarray -> result ndarray :=
  col_update (fun v => v / to_float x) i.

(** ** class dataset *)

Record dataset : Type := {
  columns : list string;
  data : ndarray;
  name : string;
  is_simulation : bool
}.

(** [dataset.__init__]: the column list and the array are copied, then the
    column count is asserted. *)
Definition dataset_init (columns : list string) (data : ndarray) (name : string)
    (is_simulation : bool) : result dataset :=
  let self := {| columns := columns; data := data; name := name;
                 is_simulation := is_simulation |} in
  if decide (length columns = shape1 data) then Ok self
  else Raise (AssertionError "").

Definition npoints (self : dataset) : nat := shape1 (data self).

Definition shape (self : dataset) : nat * nat :=
  (shape0 (data self), shape1 (data self)).

(** The body of the loop of [normalize] for one [(i, col)]. *)
Definition normalize_col (dims : dimensions) (name : string) (i : nat)
    (col : string) (data : ndarray) : result ndarray :=
  if bool_decide (col ∈ ["y"; "z"]) then
    let offset := getattr dims (col +:+ "_offset") (VInt 0) in
    data ← isub_col i offset data;
    let flip := getattr dims (col +:+ "_flip") (VInt 1) in
    data ← imul_col i flip data;
    idiv_col i (VFloat (D dims)) data
  else if bool_decide (col ∈ ["Ux"; "Uy"; "Uz"]) then
    axis ← str_last col;
    data ← (if negb (str_contains "fluct" name) then
              let flip := getattr dims (axis +:+ "_flip") (VInt 1) in
              imul_col i flip data
            else Ok data);
    let Ubulk := Ubulk dims in
    idiv_col i (VFloat Ubulk) data
  else Ok data.

(** [for i, col in enumerate(self.columns)], from index [i] on. *)
Fixpoint normalize_loop (dims : dimensions) (name : string) (i : nat)
    (cols : list string) (data : ndarray) : result ndarray :=
  match cols with
  | [] => Ok data
  | col :: cols' =>
      data ← normalize_col dims name i col data;
      normalize_loop dims name (S i) cols' data
  end.

Definition normalize (self : dataset) (reacting : bool) : result dataset :=
  if is_simulation self then
    let dims := dimensions_init reacting in
    data ← normalize_loop dims (name self) 0 (columns self) (data self);
    Ok {| columns := columns self; data := data; name := name self;
          is_simulation := is_simulation self |}
  else Raise (AssertionError "I don't know how to normalize experimental data").

(** The operands looked up by [normalize]:
    [getattr(dims, '{}_offset'.format(col), 0)] and
    [getattr(dims, '{}_flip'.format(axis), 1)]. *)
Definition axis_offset (dims : dimensions) (col : string) : float :=
  to_float (getattr dims (col +:+ "_offset") (VInt 0)).
Definition axis_flip (dims : dimensions) (axis : string) : float :=
  to_float (getattr dims (axis +:+ "_flip") (VInt 1)).

(** The structural invariant asserted by the constructor. *)
Definition dataset_inv (self : dataset) : Prop :=
  length (columns self) = shape1 (data self).

(** The array [a] with [f] applied to column [i]. *)
Definition map_col (f : float -> float) (i : nat) (a : ndarray) : ndarray :=
  {| shape0 := shape0 a; shape1 := shape1 a; rows := alter f i <$> rows a |}.

(** What one iteration of the loop of [normalize] does to an entry of a
    column named [col]; proved from [normalize_col] in
    [normalize_col_entry_map]. *)
Definition entry_map (dims : dimensions) (name col : string) : float -> float :=
  if bool_decide (col ∈ ["y"; "z"]) then
    fun v => (v - axis_offset dims col) * axis_flip dims col / D dims
  else if bool_decide (col = "Ux") then
    if str_contains "fluct" name then fun v => v / Ubulk dims
    else fun v => v * axis_flip dims "x" / Ubulk dims
  else if bool_decide (col = "Uy") then
    if str_contains "fluct" name then fun v => v / Ubulk dims
    else fun v => v * axis_flip dims "y" / Ubulk dims
  else if bool_decide (col = "Uz") then
    if str_contains "fluct" name then fun v => v / Ubulk dims
    else fun v => v * axis_flip dims "z" / Ubulk dims
  else fun v => v.

(** ** [dataset.__setitem__]

    [self.data[key] = value] for the basic keys of a two-dimensional array:
    an integer or the full slice [:] per axis.  The value is a Python scalar
    or a one-dimensional array, broadcast to the selection. *)

Inductive index : Type :=
| Idx (i : Z)
| All.

Inductive key : Type :=
| Key1 (r : index)
| Key2 (r c : index).

Inductive rhs : Type :=
| Scalar (v : value)
| Vector (l : list float).

(** An integer index into an axis of length [n]; negative indices count
    from the end. *)
Definition norm_index (n : nat) (i : Z) : result nat :=
  if decide (0 <= i < Z.of_nat n)%Z then Ok (Z.to_nat i)
  else if decide (- Z.of_nat n <= i < 0)%Z then Ok (Z.to_nat (Z.of_nat n + i))
  else Raise IndexError.

(** A one-dimensional value broadcast to length [n]. *)
Definition broadcast (x : rhs) (n : nat) : result (list float) :=
  match x with
  | Scalar v => Ok (replicate n (to_float v))
  | Vector l =>
      if decide (length l = n) then Ok l
      else match l with
           | [v] => Ok (replicate n v)
           | _ => Raise ValueError
           end
  end.

Definition with_rows (a : ndarray) (rs : list (list float)) : ndarray :=
  {| shape0 := shape0 a; shape1 := shape1 a; rows := rs |}.

Definition ndarray_setitem (k : key) (x : rhs) (a : ndarray) : result ndarray :=
  match k with
  | Key1 All | Key2 All All =>
      l ← broadcast x (shape1 a);
      Ok (with_rows a ((fun _ => l) <$> rows a))
  | Key1 (Idx r) | Key2 (Idx r) All =>
      r ← norm_index (shape0 a) r;
      l ← broadcast x (shape1 a);
      Ok (with_rows a (<[r := l]> (rows a)))
  | Key2 All (Idx c) =>
      c ← norm_index (shape1 a) c;
      l ← broadcast x (shape0 a);
      Ok (with_rows a (zip_with (fun row v => <[c := v]> row) (rows a) l))
  | Key2 (Idx r) (Idx c) =>
      r ← norm_index (shape0 a) r;
      c ← norm_index (shape1 a) c;
      l ← broadcast x 1;
      match l with
      | [v] => Ok (with_rows a (alter (fun row => <[c := v]> row) r (rows a)))
      | _ => Raise ValueError
      end
  end.

Definition setitem (self : dataset) (k : key) (x : rhs) : result dataset :=
  data ← ndarray_setitem k x (data self);
  Ok {| columns := columns self; data := data; name := name self;
        is_simulation := is_simulation self |}.

(** ** [dataset.__getitem__]

    [self.data[key]] for the same keys.  numpy returns a view for these
    keys; only the values it holds are modelled.  The [None] branches
    cannot be reached on an array whose rows agree with its shape. *)

Inductive item : Type :=
| Elem (v : float)
| Vec (l : list float)
| Mat (rs : list (list float)).

Definition ndarray_getitem (k : key) (a : ndarray) : result item :=
  match k with
  | Key1 All | Key2 All All => Ok (Mat (rows a))
  | Key1 (Idx r) | Key2 (Idx r) All =>
      r ← norm_index (shape0 a) r;
      match rows a !! r with
      | Some row => Ok (Vec row)
      | None => Raise IndexError
      end
  | Key2 All (Idx c) =>
      c ← norm_index (shape1 a) c;
      match mapM (fun row : list float => row !! c) (rows a) with
      | Some l => Ok (Vec l)
      | None => Raise IndexError
      end
  | Key2 (Idx r) (Idx c) =>
      r ← norm_index (shape0 a) r;
      c ← norm_index (shape1 a) c;
      match entry a r c with
      | Some v => Ok (Elem v)
      | None => Raise IndexError
      end
  end.

Definition getitem (self : dataset) (k : key) : result item :=
  ndarray_getitem k (data self).

(** The entries [(r, c)] of [a] that a key selects. *)
Definition selects (a : ndarray) (k : key) (r c : nat) : Prop :=
  match k with
  | Key1 All | Key2 All All => True
  | Key1 (Idx i) | Key2 (Idx i) All => norm_index (shape0 a) i = Ok r
  | Key2 All (Idx j) => norm_index (shape1 a) j = Ok c
  | Key2 (Idx i) (Idx j) =>
      norm_index (shape0 a) i = Ok r /\ norm_index (shape1 a) j = Ok c
  end.

(** ** class PlotStyles *)

Record PlotStyles : Type := {
  num_colors : nat;
  grey : bool
}.

Definition PlotStyles_init (cases : list string) (grey : bool) : PlotStyles :=
  {| num_colors := length cases + 1; grey := grey |}.

(** [plt.get_cmap(name, lut)]: the named colour map resampled to [lut]
    entries. *)
Record colormap : Type := {
  cmap_name : string;
  cmap_N : nat
}.

Definition get_cmap (name : string) (lut : nat) : colormap :=
  {| cmap_name := name; cmap_N := lut |}.

Definition color_map (self : PlotStyles) : colormap :=
  let cmap := if grey self then "Greys" else "inferno" in
  get_cmap cmap (num_colors self + 1).

(** Calling a matplotlib colour map with an int [X] looks up entry [X] of
    its table; an [X] past the end selects the "over" entry [N + 1], a
    negative one the "under" entry [N].  The colour returned is identified
    by the map and the table index. *)
Definition colormap_call (cm : colormap) (X : Z) : colormap * Z :=
  let N := Z.of_nat (cmap_N cm) in
  (cm, if decide (X > N - 1)%Z then (N + 1)%Z
       else if decide (X < 0)%Z then N else X).

(** ** os.path (POSIX) *)

(** What the script sees of its environment: the working directory, the
    directory of [common.py] ([script_dir]) and which paths are
    directories. *)
Record os_env : Type := {
  getcwd : string;
  script_dir : string;
  isdir : string -> bool
}.

Definition pardir : string := "..".

Definition startswith (s p : string) : bool := String.prefix p s.

(** [s.endswith('/')] *)
Fixpoint endswith_sep (s : string) : bool :=
  match s with
  | EmptyString => false
  | String c EmptyString => bool_decide (c = "/"%char)
  | String _ s' => endswith_sep s'
  end.

Definition isabs (s : string) : bool := startswith s "/".

(** One step of [posixpath.join]: an absolute component discards what came
    before it. *)
Definition join2 (path b : string) : string :=
  if startswith b "/" then b
  else if bool_decide (path = "") || endswith_sep path then path +:+ b
  else path +:+ "/" +:+ b.

Definition pjoin (a : string) (p : list string) : string :=
  foldl join2 a p.

(** [s.split('/')] *)
Fixpoint split_sep (s : string) : list string :=
  match s with
  | EmptyString => [""]
  | String c s' =>
      if bool_decide (c = "/"%char) then "" :: split_sep s'
      else match split_sep s' with
           | h :: t => String c h :: t
           | [] => [String c ""]
           end
  end.

Definition normpath_step (initial_slashes : nat) (new_comps : list string)
    (comp : string) : list string :=
  if bool_decide (comp ∈ [""; "."]) then new_comps
  else if negb (bool_decide (comp = ".."))
          || (bool_decide (initial_slashes = 0%nat) && bool_decide (new_comps = []))
          || (negb (bool_decide (new_comps = []))
              && bool_decide (last new_comps = Some ".."))
       then new_comps ++ [comp]
       else removelast new_comps.

Definition normpath (path : string) : string :=
  if bool_decide (path = "") then "."
  else
    let initial_slashes :=
      if startswith path "/" then
        if startswith path "//" && negb (startswith path "///") then 2%nat
        else 1%nat
      else 0%nat in
    let comps := split_sep path in
    let new_comps := foldl (normpath_step initial_slashes) [] comps in
    let path := String.concat "/" new_comps in
    let path := String.concat "" (replicate initial_slashes "/") +:+ path in
    if bool_decide (path = "") then "." else path.

Definition abspath (env : os_env) (path : string) : string :=
  let path := if negb (isabs path) then join2 (getcwd env) path else path in
  normpath path.

(** ** class UserOptions *)

Record UserOptions : Type := {
  cases : list string;
  reacting : bool;
  t_start : value;
  t_end : value;
  base_path : option string;
  out_path : option string;
  velocity_component : list string;
  style : PlotStyles
}.

(** The body of [get_cases] on the attributes it reads: the new
    [self.base_path] and the returned list. *)
Definition resolve_cases (env : os_env) (base_path : option string)
    (reacting : bool) (cases : list string) : string * list string :=
  let base_path :=
    match base_path with
    | Some p => if bool_decide (p = "") then abspath env (pjoin (script_dir env) [pardir])
                else abspath env p
    | None => abspath env (pjoin (script_dir env) [pardir])
    end in
  let react_str := if reacting then "reacting" else "non-reacting" in
  let base_path := pjoin base_path [react_str] in
  (base_path, (fun case => pjoin base_path [case]) <$> cases).

(** [get_cases] returns the list and leaves [self.base_path] updated. *)
Definition get_cases (env : os_env) (self : UserOptions) : list string * UserOptions :=
  let '(bp, paths) :=
    resolve_cases env (base_path self) (reacting self) (cases self) in
  (paths,
   {| cases := cases self; reacting := reacting self; t_start := t_start self;
      t_end := t_end self; base_path := Some bp; out_path := out_path self;
      velocity_component := velocity_component self; style := style self |}).

(** [UserOptions.__init__]; [get_cases] runs before [self.style] exists. *)
Definition UserOptions_init (env : os_env) (cases : list string) (reacting : bool)
    (t_start t_end : value) (base_path out_path : option string)
    (velocity_component : string) : UserOptions :=
  let velocity_component :=
    if bool_decide (velocity_component = "both") then ["z"; "y"]
    else [velocity_component] in
  let '(base_path, cases) := resolve_cases env base_path reacting cases in
  let out_path :=
    match out_path with
    | None => Some (script_dir env)
    | Some p => Some p
    end in
  {| cases := cases; reacting := reacting; t_start := t_start; t_end := t_end;
     base_path := Some base_path; out_path := out_path;
     velocity_component := velocity_component;
     style := PlotStyles_init cases false |}.

Definition ncases (self : UserOptions) : nat := length (cases self).

Definition not_found_message (graph_name react_str case path : string) : string :=
  "Graph " +:+ graph_name +:+ " for case " +:+ react_str +:+ " " +:+ case
  +:+ " not found, " +:+ path +:+ " is not a valid directory".

Definition get_simulation_path (env : os_env) (self : UserOptions)
    (case graph_name : string) : result string :=
  match base_path self with
  | None => Raise TypeError
  | Some bp =>
      let path := pjoin bp [case; "postProcessing"; graph_name] in
      let path := abspath env path in
      if negb (isdir env path) then
        Raise (Exception (not_found_message graph_name
                 (if reacting self then "reacting" else "non-reacting")
                 case path))
      else Ok path
  end.

Definition color (self : UserOptions) (caseno : Z) (exp : bool) : colormap * Z :=
  colormap_call (color_map (style self)) (if negb exp then (caseno + 1)%Z else 0%Z).

(** ** Sample data *)

Definition posix_env : os_env :=
  {| getcwd := "/home/user/bluffbody_LES/plotting";
     script_dir := "/home/user/bluffbody_LES/plotting";
     isdir := fun p =>
       bool_decide (p = "/data/les/reacting/coarse/postProcessing/axialDeficitPlot_0point95") |}.

(** A [y] column holding 100 mm in metres, the same with the value in
    millimetres, and a [Ux] column holding the reacting bulk velocity. *)
Definition y_sample : dataset :=
  {| columns := ["y"];
     data := {| shape0 := 1; shape1 := 1; rows := [[0.1]] |};
     name := "axialDeficitPlot_0point95"; is_simulation := true |}.

Definition y_sample_mm : dataset :=
  {| columns := ["y"];
     data := {| shape0 := 1; shape1 := 1; rows := [[100]] |};
     name := "axialDeficitPlot_0point95"; is_simulation := true |}.

Definition Ux_sample : dataset :=
  {| columns := ["Ux"];
     data := {| shape0 := 1; shape1 := 1; rows := [[17.6]] |};
     name := "axialDeficitPlot_0point95"; is_simulation := true |}.

(** Three points of a profile with five columns. *)
Definition profile_sample : dataset :=
  {| columns := ["y"; "Ux"; "p"; "z"; "Uz"];
     data := {| shape0 := 3; shape1 := 5;
                rows := [[0.1; 17.6; 3; 0.2; 1];
                         [0.06; 1; 2; 3; 4];
                         [0; 0; 101325; -0.2; 0]] |};
     name := "UMean"; is_simulation := true |}.

(** An experimental data set. *)
Definition exp_sample : dataset :=
  {| columns := ["z"; "Uz"];
     data := {| shape0 := 1; shape1 := 2; rows := [[0.5; 0.25]] |};
     name := "axialDeficitPlot_0point95"; is_simulation := false |}.

(** A simulation data set without coordinates or velocities. *)
Definition scalar_sample : dataset :=
  {| columns := ["x"; "p"; "T"];
     data := {| shape0 := 2; shape1 := 3;
                rows := [[0.1; 101325; 300]; [0.2; 101300; 1500]] |};
     name := "pMean"; is_simulation := true |}.

(** The options as [get_cases] finds them inside [__init__] for
    [-r -c coarse /tmp/fine], and the options built for
    [-r -c coarse fine -p /data/les]. *)
Definition raw_options : UserOptions :=
  {| cases := ["coarse"; "/tmp/fine"]; reacting := true;
     t_start := VInt 0; t_end := VInt (-1);
     base_path := None; out_path := None;
     velocity_component := ["z"; "y"];
     style := PlotStyles_init [] false |}.

Definition sample_options : UserOptions :=
  UserOptions_init posix_env ["coarse"; "fine"] true (VInt 0) (VInt (-1))
    (Some "/data/les") None "both".

(** * Properties *)

(** ** The helpers on small inputs *)

Example str_contains_examples :
  str_contains "fluct" "UPrime2Mean_fluct" = true
  /\ str_contains "fluct" "axialDeficitPlot_0point95" = false
  /\ str_contains "fluct" "fluc" = false
  /\ str_contains "" "" = true.
Proof. by repeat split. Qed.

Example str_last_examples :
  str_last "Uz" = Ok "z" /\ str_last "y" = Ok "y" /\ str_last "" = Raise IndexError.
Proof. by repeat split. Qed.

Example getattr_examples :
  getattr (dimensions_init false) "y_flip" (VInt 1) = VInt 1
  /\ getattr (dimensions_init false) "z_flip" (VInt 1) = VInt (-1)
  /\ getattr (dimensions_init false) "x_offset" (VInt 0) = VInt 0
  /\ getattr (dimensions_init false) "y_offset" (VInt 0) = VFloat 0.06.
Proof. by repeat split. Qed.

Example pjoin_examples :
  pjoin "/data/les" ["coarse"; "postProcessing"] = "/data/les/coarse/postProcessing"
  /\ pjoin "/data/les/" ["coarse"] = "/data/les/coarse"
  /\ pjoin "/data/les" ["/tmp/fine"; "g"] = "/tmp/fine/g"
  /\ pjoin "" ["coarse"] = "coarse"
  /\ pjoin "/data/les" [""] = "/data/les/".
Proof. by repeat split. Qed.

Example normpath_examples :
  normpath "//a/b/../../../c/" = "//c"
  /\ normpath "///a" = "/a"
  /\ normpath "a/../.." = ".."
  /\ normpath "/.." = "/"
  /\ normpath "" = "."
  /\ normpath "/home/user/bluffbody_LES/plotting/.." = "/home/user/bluffbody_LES"
  /\ split_sep "/a//b/" = [""; "a"; ""; "b"; ""].
Proof. by repeat split. Qed.

Example abspath_examples :
  abspath posix_env "runs" = "/home/user/bluffbody_LES/plotting/runs"
  /\ abspath posix_env "/data//les/./a/.." = "/data/les".
Proof. by repeat split. Qed.

Example setitem_examples :
  (exists self',
     setitem exp_sample (Key2 All (Idx (-1))) (Scalar (VInt 0)) = Ok self'
     /\ rows (data self') = [[0.5; 0]])
  /\ setitem exp_sample (Key2 All (Idx 2)) (Scalar (VInt 0)) = Raise IndexError
  /\ setitem exp_sample (Key1 (Idx 0)) (Vector [1; 2; 3]) = Raise ValueError
  /\ (exists self',
        setitem exp_sample (Key1 (Idx 0)) (Vector [1; 2]) = Ok self'
        /\ rows (data self') = [[1; 2]]).
Proof. repeat split; by eexists. Qed.

Example normalize_profile_sample :
  normalize profile_sample true =
    Ok {| columns := ["y"; "Ux"; "p"; "z"; "Uz"];
          data := {| shape0 := 3; shape1 := 5;
                     rows := [[1.0000000000000002; 1; 3; -10; -0.056818181818181816];
                              [0; 0.056818181818181816; 2; -80; -0.22727272727272727];
                              [-1.5; 0; 101325; -0; -0]] |};
          name := "UMean"; is_simulation := true |}.
Proof. reflexivity. Qed.

(** ** Column updates, entry by entry *)

Lemma col_update_ok f i a :
  (i < shape1 a)%nat -> col_update f i a = Ok (map_col f i a).
Proof. intros Hi. unfold col_update. by rewrite decide_True. Qed.

Lemma col_update_raises f i a e :
  col_update f i a = Raise e -> e = IndexError.
Proof. unfold col_update. case_decide; congruence. Qed.

Lemma map_col_compose f g i a :
  map_col g i (map_col f i a) = map_col (g ∘ f) i a.
Proof.
  unfold map_col; simpl. f_equal.
  rewrite <- list_fmap_compose. apply list_fmap_ext.
  intros _ row _. simpl. by rewrite list_alter_alter_eq.
Qed.

Lemma map_col_id i a : map_col (fun v => v) i a = a.
Proof.
  destruct a as [n m rs]. unfold map_col; simpl. f_equal.
  rewrite <- (list_fmap_id rs) at 2. apply list_fmap_ext.
  intros _ row _. by apply list_alter_id.
Qed.

Lemma entry_map_col f i a r j :
  entry (map_col f i a) r j =
  if decide (i = j) then f <$> entry a r j else entry a r j.
Proof.
  unfold entry, map_col; simpl. rewrite list_lookup_fmap.
  destruct (rows a !! r) as [row|]; simpl; [|by case_decide].
  case_decide as Hij.
  - subst j. apply list_lookup_alter_eq.
  - by apply list_lookup_alter_ne.
Qed.

Lemma normalize_col_entry_map dims nm i col a :
  (i < shape1 a)%nat ->
  normalize_col dims nm i col a = Ok (map_col (entry_map dims nm col) i a).
Proof.
  intros Hi. unfold normalize_col, entry_map.
  destruct (bool_decide (col ∈ ["y"; "z"])) eqn:Hyz.
  - unfold isub_col, imul_col, idiv_col.
    rewrite col_update_ok by done. simpl.
    rewrite col_update_ok by done. simpl.
    rewrite col_update_ok by done. by rewrite !map_col_compose.
  - destruct (bool_decide (col ∈ ["Ux"; "Uy"; "Uz"])) eqn:HU.
    + apply bool_decide_eq_true_1 in HU.
      unfold imul_col, idiv_col.
      assert (col = "Ux" \/ col = "Uy" \/ col = "Uz") as [->|[->| ->]]
        by (set_unfold; tauto); simpl;
        destruct (str_contains "fluct" nm); simpl;
        rewrite ?col_update_ok by done; simpl;
        rewrite ?col_update_ok by done; by rewrite ?map_col_compose.
    + apply bool_decide_eq_false_1 in HU.
      rewrite !bool_decide_eq_false_2 by (set_unfold; tauto).
      by rewrite map_col_id.
Qed.

(** The loop over [cols] from index [k] succeeds when the array has the
    columns [k .. k + len(cols) - 1]; it keeps the shape and changes the
    entry at column [j] by the [entry_map] of the name of that column. *)
Lemma normalize_loop_ok dims nm cols :
  forall (k : nat) (a : ndarray),
    (k + length cols <= shape1 a)%nat ->
    exists a',
      normalize_loop dims nm k cols a = Ok a'
      /\ shape0 a' = shape0 a /\ shape1 a' = shape1 a
      /\ length (rows a') = length (rows a)
      /\ forall r j,
           entry a' r j =
           match cols !! (j - k)%nat with
           | Some col =>
               if decide (k <= j)%nat
               then entry_map dims nm col <$> entry a r j
               else entry a r j
           | None => entry a r j
           end.
Proof.
  induction cols as [|col cols IH]; intros k a Hk; simpl in *.
  - exists a. by repeat split.
  - rewrite normalize_col_entry_map by lia. simpl.
    destruct (IH (S k) (map_col (entry_map dims nm col) k a)) as
      (a' & Hrun & H0 & H1 & Hlen & Hent); [simpl; lia|].
    exists a'. split; [done|]. simpl in *.
    rewrite length_fmap in Hlen. repeat split; try done.
    intros r j. rewrite Hent, entry_map_col.
    destruct (decide (k = j)) as [->|Hne].
    + replace (j - S j)%nat with 0%nat by lia.
      replace (j - j)%nat with 0%nat by lia. simpl.
      rewrite decide_True by lia.
      destruct (cols !! 0%nat); [|done]. by rewrite decide_False by lia.
    + destruct (decide (k <= j)%nat) as [Hle|Hgt].
      * replace (j - k)%nat with (S (j - S k)) by lia. simpl.
        destruct (cols !! (j - S k)%nat); [|done].
        by rewrite decide_True by lia.
      * replace (j - k)%nat with 0%nat by lia. simpl.
        destruct (cols !! (j - S k)%nat); [|done].
        by rewrite decide_False by lia.
Qed.

Lemma str_last_raises s e : str_last s = Raise e -> e = IndexError.
Proof.
  induction s as [|c s IH]; simpl; [congruence|].
  destruct s; [congruence|done].
Qed.

(** The loop never raises anything but [IndexError]. *)
Lemma normalize_loop_raises dims nm cols :
  forall (k : nat) (a : ndarray) (e : exception),
    normalize_loop dims nm k cols a = Raise e -> e = IndexError.
Proof.
  induction cols as [|col cols IH]; intros k a e; simpl; [done|].
  destruct (decide (k < shape1 a)%nat) as [Hk|Hk].
  - rewrite normalize_col_entry_map by done. simpl. apply IH.
  - assert (col_fail : forall f b, col_update f k a ≫= b = Raise IndexError
                                  :> result ndarray).
    { intros f b. unfold col_update. by rewrite decide_False. }
    unfold normalize_col, isub_col, imul_col, idiv_col.
    destruct (bool_decide (col ∈ ["y"; "z"])).
    { rewrite col_fail. simpl. congruence. }
    destruct (bool_decide (col ∈ ["Ux"; "Uy"; "Uz"])); [|simpl; apply IH].
    destruct (str_last col) as [axis|e'] eqn:Hlast; simpl.
    + destruct (negb (str_contains "fluct" nm)); simpl.
      * rewrite col_fail. simpl. congruence.
      * unfold col_update. rewrite decide_False by done. simpl. congruence.
    + intros [= <-]. by apply str_last_raises in Hlast.
Qed.

(** [normalize] on a simulation dataset that satisfies the invariant. *)
Lemma normalize_ok (self : dataset) (reacting : bool) :
  is_simulation self = true -> dataset_inv self ->
  exists a',
    normalize self reacting =
      Ok {| columns := columns self; data := a'; name := name self;
            is_simulation := is_simulation self |}
    /\ shape0 a' = shape0 (data self) /\ shape1 a' = shape1 (data self)
    /\ length (rows a') = length (rows (data self))
    /\ forall r j,
         entry a' r j =
         match columns self !! j with
         | Some col =>
             entry_map (dimensions_init reacting) (name self) col
               <$> entry (data self) r j
         | None => entry (data self) r j
         end.
Proof.
  intros Hsim Hinv. unfold normalize. rewrite Hsim.
  destruct (normalize_loop_ok (dimensions_init reacting) (name self)
              (columns self) 0 (data self)) as (a' & Hrun & H0 & H1 & Hl & He).
  { unfold dataset_inv in Hinv. simpl. lia. }
  exists a'. rewrite Hrun. simpl. repeat split; try done.
  intros r j. rewrite He. rewrite Nat.sub_0_r.
  destruct (columns self !! j); [|done]. by rewrite decide_True by lia.
Qed.

(** ** The constants of the rig *)

Lemma dimensions_values (reacting : bool) :
  let dims := dimensions_init reacting in
  D dims = 0.04 /\ Ubulk dims = (if reacting then 17.6 else 16.6)
  /\ axis_offset dims "y" = 0.06 /\ axis_offset dims "z" = -0.2
  /\ axis_flip dims "x" = 1 /\ axis_flip dims "y" = 1 /\ axis_flip dims "z" = -1.
Proof. by destruct reacting. Qed.

(** ** Dataset.normalize *)

(** C1 (as amended): on a simulation dataset, [normalize] replaces each
    value [v] of a column named [y] or [z] by [(v - offset) * flip / D], in
    that order, with the offset and flip sign of that axis.  For [y] the
    offset is 0.06 and, there being no [y_flip], the flip sign is 1; for [z]
    they are -0.2 and -1; [D] is 0.04.  A [y] value of 0.1 (100 mm) becomes
    1.0000000000000002. *)
Theorem normalize_spatial (self : dataset) (reacting : bool) :
  is_simulation self = true -> dataset_inv self ->
  let dims := dimensions_init reacting in
  (exists self',
     normalize self reacting = Ok self'
     /\ forall (i : nat) (col : string) (r : nat),
          columns self !! i = Some col -> col ∈ ["y"; "z"] ->
          entry (data self') r i =
          (fun v => (v - axis_offset dims col) * axis_flip dims col / D dims)
            <$> entry (data self) r i)
  /\ axis_offset dims "y" = 0.06 /\ axis_flip dims "y" = 1
  /\ axis_offset dims "z" = -0.2 /\ axis_flip dims "z" = -1
  /\ D dims = 0.04
  /\ normalize y_sample reacting =
       Ok {| columns := ["y"];
             data := {| shape0 := 1; shape1 := 1;
                        rows := [[(0.1 - 0.06) * 1 / 0.04]] |};
             name := "axialDeficitPlot_0point95"; is_simulation := true |}
  /\ (0.1 - 0.06) * 1 / 0.04 = 1.0000000000000002.
Proof.
  intros Hsim Hinv dims. split; [|by destruct reacting].
  destruct (normalize_ok self reacting Hsim Hinv) as (a' & Hrun & _ & _ & _ & He).
  eexists. split; [exact Hrun|]. simpl.
  intros i col r Hcol Hyz. rewrite He, Hcol.
  unfold entry_map. by rewrite bool_decide_eq_true_2.
Qed.

Lemma normalize_spatial_witness :
  exists self',
    normalize y_sample false = Ok self'
    /\ entry (data self') 0 0 = Some 1.0000000000000002.
Proof.
  destruct (normalize_spatial y_sample false eq_refl eq_refl)
    as ((self' & Hrun & Hent) & _).
  exists self'. split; [exact Hrun|].
  rewrite (Hent 0%nat "y" 0%nat eq_refl); [reflexivity|].
  apply list_elem_of_here.
Defined.

(** The instance of C1 as stated: a [y] value of 100 mm does not become
    -1.0, whether the column holds metres or millimetres. *)
Lemma normalize_y_100mm_not_minus_one :
  normalize y_sample false =
    Ok {| columns := ["y"];
          data := {| shape0 := 1; shape1 := 1; rows := [[1.0000000000000002]] |};
          name := "axialDeficitPlot_0point95"; is_simulation := true |}
  /\ normalize y_sample_mm false =
    Ok {| columns := ["y"];
          data := {| shape0 := 1; shape1 := 1; rows := [[2498.5]] |};
          name := "axialDeficitPlot_0point95"; is_simulation := true |}
  /\ ~ (exists self',
          normalize y_sample false = Ok self'
          /\ entry (data self') 0 0 = Some (-1))
  /\ ~ (exists self',
          normalize y_sample_mm false = Ok self'
          /\ entry (data self') 0 0 = Some (-1)).
Proof.
  split; [reflexivity|]. split; [reflexivity|].
  split; intros (self' & Hrun & Hent); vm_compute in Hrun;
    injection Hrun as <-; vm_compute in Hent; discriminate Hent.
Qed.

(** C2: on a simulation dataset, [normalize] replaces each value [v] of a
    column named [Ux], [Uy] or [Uz] by [v * flip / Ubulk] when the dataset
    name does not contain [fluct] (the flip sign being that of the axis
    [x], [y] or [z], 1 where the axis has none), and by [v / Ubulk] when it
    does.  [Ubulk] is 17.6 for a reacting case and 16.6 otherwise; the
    reacting bulk velocity in a [Ux] column becomes 1.0. *)
Theorem normalize_velocity (self : dataset) (reacting : bool) :
  is_simulation self = true -> dataset_inv self ->
  let dims := dimensions_init reacting in
  (exists self',
     normalize self reacting = Ok self'
     /\ forall (i : nat) (col axis : string) (r : nat),
          columns self !! i = Some col ->
          (col, axis) ∈ [("Ux", "x"); ("Uy", "y"); ("Uz", "z")] ->
          entry (data self') r i =
          (if str_contains "fluct" (name self)
           then fun v => v / Ubulk dims
           else fun v => v * axis_flip dims axis / Ubulk dims)
            <$> entry (data self) r i)
  /\ Ubulk dims = (if reacting then 17.6 else 16.6)
  /\ axis_flip dims "x" = 1 /\ axis_flip dims "y" = 1 /\ axis_flip dims "z" = -1
  /\ normalize Ux_sample true =
       Ok {| columns := ["Ux"];
             data := {| shape0 := 1; shape1 := 1; rows := [[1]] |};
             name := "axialDeficitPlot_0point95"; is_simulation := true |}.
Proof.
  intros Hsim Hinv dims. split; [|by destruct reacting].
  destruct (normalize_ok self reacting Hsim Hinv) as (a' & Hrun & _ & _ & _ & He).
  eexists. split; [exact Hrun|]. simpl.
  intros i col axis r Hcol Hax. rewrite He, Hcol.
  rewrite !elem_of_cons, elem_of_nil in Hax.
  destruct Hax as [[= -> ->]|[[= -> ->]|[[= -> ->]|[]]]];
    unfold entry_map; simpl; by destruct (str_contains "fluct" (name self)).
Qed.

Lemma normalize_velocity_witness :
  exists self',
    normalize Ux_sample true = Ok self'
    /\ entry (data self') 0 0 = Some 1.
Proof.
  destruct (normalize_velocity Ux_sample true eq_refl eq_refl)
    as ((self' & Hrun & Hent) & _).
  exists self'. split; [exact Hrun|].
  rewrite (Hent 0%nat "Ux" "x" 0%nat eq_refl); [reflexivity|].
  apply list_elem_of_here.
Defined.

(** C3: [normalize] on a dataset that is not a simulation raises an
    [AssertionError], whatever the reacting flag; on a simulation dataset it
    never does. *)
Theorem normalize_requires_simulation (self : dataset) (reacting : bool) :
  (is_simulation self = false ->
   exists msg, normalize self reacting = Raise (AssertionError msg))
  /\ (is_simulation self = true ->
      forall msg, normalize self reacting <> Raise (AssertionError msg)).
Proof.
  unfold normalize. split; intros Hsim; rewrite Hsim.
  - by eexists.
  - intros msg.
    destruct (normalize_loop _ _ _ _ _) as [a'|e] eqn:Hrun; simpl; [done|].
    apply normalize_loop_raises in Hrun. by subst e.
Qed.

Lemma normalize_requires_simulation_witness :
  (exists msg, normalize exp_sample true = Raise (AssertionError msg))
  /\ (forall msg, normalize profile_sample true <> Raise (AssertionError msg)).
Proof.
  split.
  - apply (proj1 (normalize_requires_simulation exp_sample true)). reflexivity.
  - apply (proj2 (normalize_requires_simulation profile_sample true)). reflexivity.
Defined.

(** C4: on a simulation dataset, [normalize] keeps the column names, the
    name, the simulation flag and the shape of the array, and every entry of
    a column whose name is not one of [y], [z], [Ux], [Uy], [Uz]. *)
Theorem normalize_frame (self : dataset) (reacting : bool) :
  is_simulation self = true -> dataset_inv self ->
  exists self',
    normalize self reacting = Ok self'
    /\ columns self' = columns self
    /\ name self' = name self
    /\ is_simulation self' = is_simulation self
    /\ shape self' = shape self
    /\ length (rows (data self')) = length (rows (data self))
    /\ forall (i r : nat),
         (forall col, columns self !! i = Some col ->
                      col ∉ ["y"; "z"; "Ux"; "Uy"; "Uz"]) ->
         entry (data self') r i = entry (data self) r i.
Proof.
  intros Hsim Hinv.
  destruct (normalize_ok self reacting Hsim Hinv)
    as (a' & Hrun & H0 & H1 & Hlen & He).
  eexists. split; [exact Hrun|]. simpl. repeat split; try done.
  - unfold shape; simpl. by rewrite H0, H1.
  - intros i r Hcol. rewrite He.
    destruct (columns self !! i) as [col|]; [|done].
    specialize (Hcol col eq_refl). unfold entry_map.
    rewrite !bool_decide_eq_false_2 by (set_unfold; tauto).
    by destruct (entry (data self) r i).
Qed.

Lemma normalize_frame_witness :
  exists self',
    normalize profile_sample false = Ok self'
    /\ columns self' = ["y"; "Ux"; "p"; "z"; "Uz"]
    /\ shape self' = (3, 5)%nat
    /\ entry (data self') 2 2 = Some 101325.
Proof.
  destruct (normalize_frame profile_sample false eq_refl eq_refl)
    as (self' & Hrun & Hcols & _ & _ & Hshape & _ & Hent).
  exists self'. repeat split; try done.
  rewrite Hent; [reflexivity|].
  intros col [= <-]. set_unfold. intros H.
  repeat (destruct H as [H|H]; [discriminate H|]). done.
Defined.

(** C5: [normalize] is not idempotent.  A second call on a [y] column
    subtracts the offset and divides by [D] again, and a second call on a
    velocity column divides by [Ubulk] again. *)
Theorem normalize_not_idempotent :
  (exists once twice,
     is_simulation y_sample = true /\ dataset_inv y_sample
     /\ normalize y_sample false = Ok once
     /\ normalize once false = Ok twice
     /\ entry (data once) 0 0 = Some 1.0000000000000002
     /\ entry (data twice) 0 0 = Some 23.500000000000004
     /\ twice <> once)
  /\ (exists once twice,
        is_simulation Ux_sample = true /\ dataset_inv Ux_sample
        /\ normalize Ux_sample true = Ok once
        /\ normalize once true = Ok twice
        /\ entry (data once) 0 0 = Some 1
        /\ entry (data twice) 0 0 = Some 0.056818181818181816
        /\ twice <> once).
Proof.
  split; eexists; eexists;
    (split; [reflexivity|]); (split; [reflexivity|]);
    (split; [vm_compute; reflexivity|]); (split; [vm_compute; reflexivity|]);
    (split; [reflexivity|]); (split; [reflexivity|]);
    intros H; apply (f_equal (fun d => entry (data d) 0 0)) in H;
    vm_compute in H; discriminate H.
Qed.

(** ** The structural invariant *)


Lemma broadcast_length x n l : broadcast x n = Ok l -> length l = n.
Proof.
  destruct x as [v|l']; simpl.
  - intros [= <-]. apply length_replicate.
  - case_decide; [by intros [= <-]|].
    destruct l' as [|v [|]]; try done. intros [= <-]. apply length_replicate.
Qed.

(** Assignment through a key keeps the shape of the array, and the rows
    keep agreeing with it. *)
Lemma ndarray_setitem_shape k x a a' :
  ndarray_setitem k x a = Ok a' ->
  shape0 a' = shape0 a /\ shape1 a' = shape1 a
  /\ (ndarray_wf a -> ndarray_wf a').
Proof.
  unfold ndarray_setitem, ndarray_wf.
  assert (Hall : forall l, broadcast x (shape1 a) = Ok l ->
            Ok (with_rows a ((fun _ => l) <$> rows a)) = Ok a' ->
            shape0 a' = shape0 a /\ shape1 a' = shape1 a
            /\ (length (rows a) = shape0 a
                /\ Forall (fun row => length row = shape1 a) (rows a) ->
                length (rows a') = shape0 a'
                /\ Forall (fun row => length row = shape1 a') (rows a'))).
  { intros l Hl [= <-]. simpl. repeat split; try done.
    - rewrite length_fmap. tauto.
    - apply Forall_fmap, Forall_true. intros row. simpl.
      by apply broadcast_length in Hl. }
  assert (Hrow : forall r,
            (r0 ← norm_index (shape0 a) r;
             l ← broadcast x (shape1 a);
             Ok (with_rows a (<[r0 := l]> (rows a)))) = Ok a' ->
            shape0 a' = shape0 a /\ shape1 a' = shape1 a
            /\ (length (rows a) = shape0 a
                /\ Forall (fun row => length row = shape1 a) (rows a) ->
                length (rows a') = shape0 a'
                /\ Forall (fun row => length row = shape1 a') (rows a'))).
  { intros r. destruct (norm_index (shape0 a) r) as [r0|]; simpl; [|done].
    destruct (broadcast x (shape1 a)) as [l|] eqn:Hl; simpl; [|done].
    intros [= <-]. simpl. repeat split; try done.
    - rewrite length_insert. tauto.
    - apply Forall_insert; [tauto|]. by apply broadcast_length in Hl. }
  destruct k as [[r|]|[r|] [c|]].
  - apply Hrow.
  - destruct (broadcast x (shape1 a)) as [l|] eqn:Hl; simpl; [|done].
    by apply Hall.
  - destruct (norm_index (shape0 a) r) as [r0|]; simpl; [|done].
    destruct (norm_index (shape1 a) c) as [c0|]; simpl; [|done].
    destruct (broadcast x 1) as [[|v [|]]|]; simpl; try done.
    intros [= <-]. simpl. repeat split; try done.
    + rewrite length_alter. tauto.
    + destruct H as [_ H]. rewrite Forall_lookup in H |- *.
      intros i row. rewrite list_lookup_alter.
      case_decide; [|by apply H]. subst i.
      destruct (rows a !! r0) as [row0|] eqn:Hr0; simpl; [|done].
      intros [= <-]. rewrite length_insert. by apply (H r0).
  - apply Hrow.
  - destruct (norm_index (shape1 a) c) as [c0|]; simpl; [|done].
    destruct (broadcast x (shape0 a)) as [l|] eqn:Hl; simpl; [|done].
    apply broadcast_length in Hl.
    intros [= <-]. simpl. repeat split; try done.
    + rewrite length_zip_with. lia.
    + destruct H as [_ H]. rewrite Forall_lookup in H |- *.
      intros i row Hi. apply lookup_zip_with_Some in Hi
        as (row0 & v & -> & Hrow0 & _).
      rewrite length_insert. by apply (H i).
  - destruct (broadcast x (shape1 a)) as [l|] eqn:Hl; simpl; [|done].
    by apply Hall.
Qed.

Lemma map_col_wf f i a : ndarray_wf a -> ndarray_wf (map_col f i a).
Proof.
  unfold ndarray_wf, map_col. simpl. intros [Hlen Hrows].
  split; [by rewrite length_fmap|].
  apply Forall_fmap. eapply Forall_impl; [exact Hrows|].
  intros row Hrow. simpl. by rewrite length_alter.
Qed.

Lemma normalize_loop_wf dims nm cols :
  forall (k : nat) (a a' : ndarray),
    normalize_loop dims nm k cols a = Ok a' ->
    shape0 a' = shape0 a /\ shape1 a' = shape1 a
    /\ (ndarray_wf a -> ndarray_wf a').
Proof.
  induction cols as [|col cols IH]; intros k a a'; simpl.
  - by intros [= <-].
  - destruct (decide (k < shape1 a)%nat) as [Hk|Hk].
    + rewrite normalize_col_entry_map by done. simpl.
      intros Hrun. destruct (IH _ _ _ Hrun) as (H0 & H1 & Hwf). simpl in *.
      split; [done|]. split; [done|]. intros Ha. by apply Hwf, map_col_wf.
    + destruct (normalize_col dims nm k col a) as [a1|e] eqn:Hcol; simpl;
        [|done].
      assert (a1 = a) as ->.
      { revert Hcol. unfold normalize_col, isub_col, imul_col, idiv_col, col_update.
        rewrite !decide_False by done.
        destruct (bool_decide (col ∈ ["y"; "z"])); simpl; [done|].
        destruct (bool_decide (col ∈ ["Ux"; "Uy"; "Uz"])); [|by intros [= ->]].
        destruct (str_last col); simpl; [|done].
        destruct (negb (str_contains "fluct" nm)); simpl;
          rewrite ?decide_False by done; done. }
      apply IH.
Qed.

(** C6: the column count of the array equals the number of column names.
    The constructor raises an [AssertionError] when they differ and
    establishes the invariant when they agree; [normalize] and
    [__setitem__] preserve it, and keep the rows of the array in agreement
    with its shape. *)
Theorem dataset_invariant (columns : list string) (a : ndarray) (nm : string)
    (sim : bool) :
  (length columns <> shape1 a ->
   exists msg, dataset_init columns a nm sim = Raise (AssertionError msg))
  /\ (length columns = shape1 a ->
      exists self, dataset_init columns a nm sim = Ok self /\ dataset_inv self)
  /\ (forall self : dataset, dataset_inv self ->
      (forall reacting self',
         normalize self reacting = Ok self' ->
         dataset_inv self' /\ (ndarray_wf (data self) -> ndarray_wf (data self')))
      /\ (forall k x self',
            setitem self k x = Ok self' ->
            dataset_inv self' /\ (ndarray_wf (data self) -> ndarray_wf (data self')))).
Proof.
  unfold dataset_init, dataset_inv. split; [|split].
  - intros Hne. rewrite decide_False by done. by eexists.
  - intros Heq. rewrite decide_True by done. by eexists.
  - intros self Hinv. split.
    + intros reacting self'. unfold normalize.
      destruct (is_simulation self); [|done].
      destruct (normalize_loop _ _ _ _ _) as [a'|] eqn:Hrun; simpl; [|done].
      intros [= <-]. simpl.
      destruct (normalize_loop_wf _ _ _ _ _ _ Hrun) as (_ & H1 & Hwf).
      split; [congruence|done].
    + intros k x self'. unfold setitem.
      destruct (ndarray_setitem k x (data self)) as [a'|] eqn:Hset; simpl; [|done].
      intros [= <-]. simpl.
      destruct (ndarray_setitem_shape _ _ _ _ Hset) as (_ & H1 & Hwf).
      split; [congruence|done].
Qed.

Lemma dataset_invariant_witness :
  (exists msg,
     dataset_init ["y"; "Ux"] (data profile_sample) "UMean" true
     = Raise (AssertionError msg))
  /\ (exists self,
        dataset_init (columns profile_sample) (data profile_sample) "UMean" true
        = Ok self /\ dataset_inv self)
  /\ (exists self',
        normalize profile_sample true = Ok self' /\ dataset_inv self')
  /\ (exists self',
        setitem profile_sample (Key2 All (Idx (-1))) (Scalar (VInt 0)) = Ok self'
        /\ dataset_inv self').
Proof.
  split; [|split; [|split]].
  - apply (proj1 (dataset_invariant ["y"; "Ux"] (data profile_sample) "UMean" true)).
    simpl. discriminate.
  - apply (proj1 (proj2 (dataset_invariant (columns profile_sample)
                           (data profile_sample) "UMean" true))).
    reflexivity.
  - eexists. split; [vm_compute; reflexivity|].
    refine (proj1 (proj1 (proj2 (proj2 (dataset_invariant [] (data profile_sample) "" true))
                            profile_sample eq_refl) true _ _)).
    vm_compute; reflexivity.
  - eexists. split; [vm_compute; reflexivity|].
    refine (proj1 (proj2 (proj2 (proj2 (dataset_invariant [] (data profile_sample) "" true))
                            profile_sample eq_refl)
                     (Key2 All (Idx (-1))) (Scalar (VInt 0)) _ _)).
    vm_compute; reflexivity.
Defined.

(** C10: on a dataset that satisfies the constructor's invariant,
    [npoints] is [data.shape[1]], which is the number of column names. *)
Theorem npoints_is_column_count (self : dataset) :
  dataset_inv self ->
  npoints self = shape1 (data self) /\ npoints self = length (columns self).
Proof. intros Hinv. unfold npoints. split; [done|]. by rewrite Hinv. Qed.

Lemma npoints_is_column_count_witness :
  npoints profile_sample = 5%nat /\ shape0 (data profile_sample) = 3%nat.
Proof.
  split; [|reflexivity].
  by rewrite (proj2 (npoints_is_column_count profile_sample eq_refl)).
Defined.

(** ** Paths *)

Lemma append_nil (s : string) : "" +:+ s = s.
Proof. reflexivity. Qed.

Lemma append_cons (c : ascii) (s t : string) :
  String c s +:+ t = String c (s +:+ t).
Proof. reflexivity. Qed.

Lemma prefix_empty s : String.prefix "" s = true.
Proof. by destruct s. Qed.

Lemma prefix_cons a s1 b s2 :
  String.prefix (String a s1) (String b s2) =
  if ascii_dec a b then String.prefix s1 s2 else false.
Proof. reflexivity. Qed.

Lemma isabs_cons s : isabs (String "/" s) = true.
Proof.
  unfold isabs, startswith. rewrite prefix_cons.
  destruct (ascii_dec "/" "/"); [apply prefix_empty|done].
Qed.

Lemma isabs_inv s : isabs s = true -> exists s', s = String "/" s'.
Proof.
  destruct s as [|c s]; [done|]. unfold isabs, startswith.
  rewrite prefix_cons.
  destruct (ascii_dec "/" c) as [<-|]; [by eexists|done].
Qed.

Lemma isabs_app a b : isabs a = true -> isabs (a +:+ b) = true.
Proof. intros [s ->]%isabs_inv. apply isabs_cons. Qed.

Lemma endswith_sep_inv s :
  endswith_sep s = true -> exists pre, s = pre +:+ "/".
Proof.
  induction s as [|c s IH]; [done|]. simpl.
  destruct s as [|c' s'].
  - intros ->%bool_decide_eq_true_1. by exists "".
  - intros [pre Hpre]%IH. exists (String c pre).
    by rewrite append_cons, <- Hpre.
Qed.

Lemma endswith_sep_app a b :
  b <> "" -> endswith_sep (a +:+ b) = endswith_sep b.
Proof.
  intros Hb. induction a as [|c a IH]; [done|].
  rewrite append_cons. simpl.
  destruct (a +:+ b) eqn:Hab; [|done].
  destruct a; [by rewrite append_nil in Hab|by rewrite append_cons in Hab].
Qed.

Lemma app_assoc_str (a b c : string) : (a +:+ b) +:+ c = a +:+ (b +:+ c).
Proof. induction a as [|x a IH]; [done|]. by rewrite !append_cons, IH. Qed.

(** Joining a relative component onto a non-empty directory that does not
    end in a slash writes [dir/comp]. *)
Lemma join2_relative path b :
  startswith b "/" = false -> path <> "" -> endswith_sep path = false ->
  join2 path b = path +:+ "/" +:+ b.
Proof.
  intros Hb Hp He. unfold join2. rewrite Hb, He.
  by rewrite bool_decide_eq_false_2.
Qed.

(** An absolute component replaces what came before it. *)
Lemma join2_absolute path b : startswith b "/" = true -> join2 path b = b.
Proof. intros Hb. unfold join2. by rewrite Hb. Qed.

Lemma join2_isabs path b :
  isabs path = true -> isabs (join2 path b) = true.
Proof.
  intros Hp. unfold join2.
  destruct (startswith b "/") eqn:Hb; [done|].
  destruct (_ || _); by apply isabs_app.
Qed.

(** Joining a directory name [d] (no slash at either end) onto an absolute
    path gives an absolute path that ends in [/d]. *)
Lemma join2_subdir path d :
  isabs path = true -> startswith d "/" = false -> d <> "" ->
  endswith_sep d = false ->
  exists pre,
    join2 path d = pre +:+ "/" +:+ d
    /\ isabs (join2 path d) = true
    /\ join2 path d <> "" /\ endswith_sep (join2 path d) = false.
Proof.
  intros Hp Hd Hne He.
  assert (Hend : forall pre, endswith_sep (pre +:+ "/" +:+ d) = false).
  { intros pre. rewrite endswith_sep_app by (by destruct d).
    change ("/" +:+ d) with (("/" : string) +:+ d).
    by rewrite (endswith_sep_app "/" d). }
  assert (Hnonempty : forall pre, pre +:+ "/" +:+ d <> "").
  { intros [|c pre]; done. }
  assert (exists pre, join2 path d = pre +:+ "/" +:+ d) as [pre Hpre].
  { unfold join2. rewrite Hd.
    destruct (bool_decide (path = "")) eqn:Hempty; simpl.
    - apply bool_decide_eq_true_1 in Hempty. by subst path.
    - destruct (endswith_sep path) eqn:Hsep; [|by eexists].
      apply endswith_sep_inv in Hsep as [pre ->]. exists pre.
      by rewrite app_assoc_str. }
  exists pre. split; [done|]. split; [by apply join2_isabs|].
  rewrite Hpre. auto.
Qed.

Lemma normpath_isabs p : isabs p = true -> isabs (normpath p) = true.
Proof.
  intros Hp. destruct (isabs_inv p Hp) as [s ->].
  unfold normpath. rewrite bool_decide_eq_false_2 by done.
  fold (isabs (String "/" s)). rewrite isabs_cons.
  destruct (startswith (String "/" s) "//" && negb (startswith (String "/" s) "///"));
    cbv zeta; cbn [replicate String.concat];
    repeat (rewrite append_cons || rewrite append_nil);
    rewrite bool_decide_eq_false_2 by done; apply isabs_cons.
Qed.

Lemma abspath_isabs env p :
  isabs (getcwd env) = true -> isabs (abspath env p) = true.
Proof.
  intros Hcwd. unfold abspath. apply normpath_isabs.
  destruct (isabs p) eqn:Hp; simpl; [done|]. by apply join2_isabs.
Qed.

(** ** Substrings *)

Lemma prefix_app s t : String.prefix s (s +:+ t) = true.
Proof.
  induction s as [|c s IH]; [apply prefix_empty|].
  rewrite append_cons, prefix_cons.
  by destruct (ascii_dec c c).
Qed.

Lemma str_contains_prefix s u :
  String.prefix s u = true -> str_contains s u = true.
Proof. intros Hp. destruct u; unfold str_contains; by rewrite Hp. Qed.

Lemma str_contains_here s t : str_contains s (s +:+ t) = true.
Proof. apply str_contains_prefix, prefix_app. Qed.

Lemma str_contains_app_r s a t :
  str_contains s t = true -> str_contains s (a +:+ t) = true.
Proof.
  intros Ht. induction a as [|c a IH]; [done|].
  rewrite append_cons. cbn [str_contains]. rewrite IH. apply orb_true_r.
Qed.

Lemma str_contains_middle s a t : str_contains s (a +:+ s +:+ t) = true.
Proof. apply str_contains_app_r, str_contains_here. Qed.

(** ** UserOptions.get_cases *)

(** C7 (as amended): [get_cases] returns one absolute path per case name.
    The root is the absolute base path (the parent of the script directory
    when no base path is given) joined with [reacting] or [non-reacting];
    a case name that does not begin with a slash resolves to [root/case],
    and one that does is returned as it is. *)
Theorem get_cases_paths (env : os_env) (self : UserOptions) :
  isabs (getcwd env) = true ->
  let react_str := if reacting self then "reacting" else "non-reacting" in
  let base :=
    match base_path self with
    | Some p => if bool_decide (p = "") then pjoin (script_dir env) [pardir] else p
    | None => pjoin (script_dir env) [pardir]
    end in
  exists root pre : string,
    root = pjoin (abspath env base) [react_str]
    /\ root = pre +:+ "/" +:+ react_str
    /\ isabs root = true
    /\ base_path (get_cases env self).2 = Some root
    /\ length (get_cases env self).1 = length (cases self)
    /\ forall (i : nat) (case : string),
         cases self !! i = Some case ->
         exists path,
           (get_cases env self).1 !! i = Some path
           /\ isabs path = true
           /\ (startswith case "/" = false -> path = root +:+ "/" +:+ case)
           /\ (startswith case "/" = true -> path = case).
Proof.
  intros Hcwd react_str base.
  destruct (join2_subdir (abspath env base) react_str)
    as (pre & Hpre & Habs & Hne & Hend).
  { by apply abspath_isabs. }
  { unfold react_str. by destruct (reacting self). }
  { unfold react_str. by destruct (reacting self). }
  { unfold react_str. by destruct (reacting self). }
  assert (Hres : resolve_cases env (base_path self) (reacting self) (cases self)
                 = (join2 (abspath env base) react_str,
                    (fun case => join2 (join2 (abspath env base) react_str) case)
                      <$> cases self)).
  { unfold resolve_cases, base, react_str, pjoin. simpl.
    destruct (base_path self) as [p|]; [|done]. by destruct (bool_decide (p = "")). }
  exists (join2 (abspath env base) react_str), pre.
  unfold get_cases. rewrite Hres. simpl.
  split; [done|]. split; [done|]. split; [done|]. split; [done|].
  split; [by rewrite length_fmap|].
  intros i case Hcase. eexists. rewrite list_lookup_fmap, Hcase. simpl.
  split; [done|]. split; [by apply join2_isabs|]. split.
  - intros Hrel. by apply join2_relative.
  - intros Hab. by apply join2_absolute.
Qed.

Lemma get_cases_paths_witness :
  (get_cases posix_env raw_options).1
  = ["/home/user/bluffbody_LES/reacting/coarse"; "/tmp/fine"]
  /\ exists path,
       (get_cases posix_env raw_options).1 !! 0%nat = Some path
       /\ path = "/home/user/bluffbody_LES/reacting" +:+ "/" +:+ "coarse".
Proof.
  split; [reflexivity|].
  destruct (get_cases_paths posix_env raw_options eq_refl)
    as (root & pre & Hroot & _ & _ & _ & _ & Hpaths).
  destruct (Hpaths 0%nat "coarse" eq_refl) as (path & Hpath & _ & Hrel & _).
  exists path. split; [exact Hpath|].
  rewrite (Hrel eq_refl), Hroot. reflexivity.
Defined.

(** The instance of C7 as stated: the absolute case name [/tmp/fine] is
    not resolved under the [reacting] directory. *)
Lemma get_cases_absolute_case_name :
  (get_cases posix_env raw_options).1
  = ["/home/user/bluffbody_LES/reacting/coarse"; "/tmp/fine"]
  /\ base_path (get_cases posix_env raw_options).2
     = Some "/home/user/bluffbody_LES/reacting"
  /\ cases (UserOptions_init posix_env ["coarse"; "/tmp/fine"] true
              (VInt 0) (VInt (-1)) None None "both")
     = ["/home/user/bluffbody_LES/reacting/coarse"; "/tmp/fine"]
  /\ (get_cases posix_env raw_options).1 !! 1%nat
     <> Some ("/home/user/bluffbody_LES/reacting" +:+ "/" +:+ "/tmp/fine")
  /\ startswith "/tmp/fine" "/home/user/bluffbody_LES/reacting" = false.
Proof. repeat split; try reflexivity. vm_compute. discriminate. Qed.

(** ** UserOptions.get_simulation_path *)

(** C8: [get_simulation_path] raises exactly when the resolved directory
    (the absolute path of base path, case, [postProcessing] and graph name
    joined) is not a directory; the message of the exception contains the
    graph name, the case and the path; otherwise the absolute path is
    returned. *)
Theorem get_simulation_path_spec (env : os_env) (self : UserOptions)
    (bp case graph_name : string) :
  base_path self = Some bp ->
  let path := abspath env (pjoin bp [case; "postProcessing"; graph_name]) in
  (isdir env path = true ->
   get_simulation_path env self case graph_name = Ok path)
  /\ (isdir env path = false ->
      exists msg,
        get_simulation_path env self case graph_name = Raise (Exception msg)
        /\ str_contains graph_name msg = true
        /\ str_contains case msg = true
        /\ str_contains path msg = true)
  /\ ((exists e, get_simulation_path env self case graph_name = Raise e)
      <-> isdir env path = false)
  /\ (isabs (getcwd env) = true -> isabs path = true)
  /\ (bp <> "" -> endswith_sep bp = false ->
      case <> "" -> endswith_sep case = false ->
      startswith case "/" = false -> startswith graph_name "/" = false ->
      pjoin bp [case; "postProcessing"; graph_name]
      = bp +:+ "/" +:+ case +:+ "/" +:+ "postProcessing" +:+ "/" +:+ graph_name).
Proof.
  intros Hbp path. unfold get_simulation_path. rewrite Hbp. fold path.
  split; [by intros ->|]. split; [|split; [|split]].
  - intros ->. simpl. eexists. split; [done|]. unfold not_found_message.
    split; [apply str_contains_middle|]. split.
    + do 5 apply str_contains_app_r. apply str_contains_here.
    + do 7 apply str_contains_app_r. apply str_contains_here.
  - destruct (isdir env path); simpl; split; try done.
    + by intros [e He].
    + intros _. by eexists.
  - intros Hcwd. by apply abspath_isabs.
  - intros Hbp1 Hbp2 Hc1 Hc2 Hc3 Hg. unfold pjoin. simpl.
    assert (Hstep1 : join2 bp case = bp +:+ "/" +:+ case)
      by (by apply join2_relative).
    assert (Hend1 : endswith_sep (bp +:+ "/" +:+ case) = false).
    { rewrite endswith_sep_app by (by destruct case).
      by rewrite (endswith_sep_app "/" case). }
    assert (Hne1 : bp +:+ "/" +:+ case <> "") by (by destruct bp).
    rewrite Hstep1.
    rewrite (join2_relative _ "postProcessing") by done.
    rewrite (join2_relative _ graph_name); try done.
    + by rewrite !app_assoc_str.
    + by destruct bp.
    + rewrite !app_assoc_str.
      rewrite endswith_sep_app by (by destruct case).
      rewrite (endswith_sep_app "/") by (by destruct case).
      by rewrite endswith_sep_app.
Qed.

Lemma get_simulation_path_spec_witness :
  get_simulation_path posix_env sample_options "coarse" "axialDeficitPlot_0point95"
  = Ok "/data/les/reacting/coarse/postProcessing/axialDeficitPlot_0point95"
  /\ exists msg,
       get_simulation_path posix_env sample_options "fine" "axialDeficitPlot_0point95"
       = Raise (Exception msg)
       /\ str_contains "fine" msg = true.
Proof.
  split.
  - apply (proj1 (get_simulation_path_spec posix_env sample_options
                    "/data/les/reacting" "coarse" "axialDeficitPlot_0point95"
                    eq_refl)).
    reflexivity.
  - destruct (proj1 (proj2 (get_simulation_path_spec posix_env sample_options
                    "/data/les/reacting" "fine" "axialDeficitPlot_0point95"
                    eq_refl)) eq_refl) as (msg & Hrun & _ & Hcase & _).
    by exists msg.
Defined.

(** ** Colours *)

Lemma resolve_cases_length env bp r cs :
  length (resolve_cases env bp r cs).2 = length cs.
Proof. unfold resolve_cases. simpl. apply length_fmap. Qed.

Lemma UserOptions_init_style env cs r t0 t1 bp op vc :
  let self := UserOptions_init env cs r t0 t1 bp op vc in
  style self = PlotStyles_init (cases self) false
  /\ ncases self = length cs.
Proof.
  unfold UserOptions_init, ncases.
  pose proof (resolve_cases_length env bp r cs) as Hlen.
  destruct (resolve_cases env bp r cs) as [b ps]. simpl in *. by split.
Qed.

(** C9 (as amended): the colour map depends only on the number of cases
    and the grey flag and has that number plus 2 entries.  Case number [c]
    (from 0 up to the number of cases, exclusive) takes entry [c + 1], so
    different cases take different entries; experimental data take entry
    0, which no case takes. *)
Theorem color_assignment (env : os_env) (cs : list string) (r : bool)
    (t0 t1 : value) (bp op : option string) (vc : string) :
  let self := UserOptions_init env cs r t0 t1 bp op vc in
  let n := Z.of_nat (length cs) in
  (forall (grey : bool) (cs' : list string),
     length cs' = length cs ->
     color_map (PlotStyles_init cs' grey)
     = get_cmap (if grey then "Greys" else "inferno") (length cs + 2))
  /\ color_map (style self) = get_cmap "inferno" (length cs + 2)
  /\ (forall c : Z,
        (0 <= c < n)%Z ->
        color self c false = (color_map (style self), (c + 1)%Z)
        /\ (0 < c + 1 < Z.of_nat (cmap_N (color_map (style self))))%Z)
  /\ (forall c1 c2 : Z,
        (0 <= c1 < n)%Z -> (0 <= c2 < n)%Z -> c1 <> c2 ->
        (color self c1 false).2 <> (color self c2 false).2)
  /\ (forall c : Z, color self c true = (color_map (style self), 0%Z))
  /\ (forall c c' : Z,
        (0 <= c < n)%Z ->
        (color self c false).2 <> (color self c' true).2).
Proof.
  intros self n.
  destruct (UserOptions_init_style env cs r t0 t1 bp op vc) as [Hstyle Hn].
  fold self in Hstyle, Hn. unfold ncases in Hn.
  assert (Hmap : color_map (style self) = get_cmap "inferno" (length cs + 2)).
  { rewrite Hstyle. unfold color_map, PlotStyles_init. cbn [num_colors grey].
    rewrite Hn. f_equal. lia. }
  assert (Hcase : forall c : Z, (0 <= c < n)%Z ->
            color self c false = (color_map (style self), (c + 1)%Z)).
  { intros c Hc. unfold color, colormap_call. rewrite Hmap.
    cbn [negb cmap_N get_cmap]. unfold n in Hc.
    repeat case_decide; (done || lia). }
  assert (Hexp : forall c : Z, color self c true = (color_map (style self), 0%Z)).
  { intros c. unfold color, colormap_call. rewrite Hmap.
    cbn [negb cmap_N get_cmap]. repeat case_decide; (done || lia). }
  split; [|split; [done|split; [|split; [|split; [done|]]]]].
  - intros grey cs' Hlen. unfold color_map, PlotStyles_init. simpl.
    rewrite Hlen. f_equal. lia.
  - intros c Hc. split; [by apply Hcase|]. rewrite Hmap. simpl.
    unfold n in Hc. lia.
  - intros c1 c2 H1 H2 Hne. rewrite !Hcase by done. simpl. lia.
  - intros c c' Hc. rewrite Hcase, Hexp by done. simpl. lia.
Qed.

Lemma color_assignment_witness :
  color sample_options 0 false = (get_cmap "inferno" 4, 1%Z)
  /\ (color sample_options 0 false).2 <> (color sample_options 1 false).2
  /\ (color sample_options 1 false).2 <> (color sample_options 0 true).2.
Proof.
  pose proof (color_assignment posix_env ["coarse"; "fine"] true (VInt 0)
                (VInt (-1)) (Some "/data/les") None "both")
    as (_ & Hmap & Hcase & Hdiff & _ & Hexp).
  split; [|split].
  - refine (proj1 (Hcase 0%Z _)). simpl. lia.
  - refine (Hdiff 0%Z 1%Z _ _ _); simpl; lia.
  - refine (Hexp 1%Z 0%Z _). simpl. lia.
Defined.

(** The instance of C9 as stated: with one case the colour map has three
    entries, not two. *)
Lemma color_map_size_is_cases_plus_two :
  color_map (style (UserOptions_init posix_env ["coarse"] true (VInt 0)
                      (VInt (-1)) None None "both"))
  = get_cmap "inferno" 3
  /\ cmap_N (color_map (PlotStyles_init ["coarse"] false)) = 3%nat
  /\ cmap_N (color_map (PlotStyles_init ["coarse"] false))
     <> (length ["coarse"] + 1)%nat.
Proof. split; [reflexivity|]. split; [reflexivity|]. simpl. discriminate. Qed.

(** * Further properties *)

(** ** When normalize returns *)

Lemma normalize_col_other dims nm i col a :
  col ∉ ["y"; "z"; "Ux"; "Uy"; "Uz"] ->
  normalize_col dims nm i col a = Ok a.
Proof.
  intros Hcol. unfold normalize_col.
  by rewrite !bool_decide_eq_false_2 by (set_unfold; tauto).
Qed.

Lemma normalize_col_out_of_range dims nm i col a :
  col ∈ ["y"; "z"; "Ux"; "Uy"; "Uz"] -> ~ (i < shape1 a)%nat ->
  normalize_col dims nm i col a = Raise IndexError.
Proof.
  intros Hcol Hi. unfold normalize_col, isub_col, imul_col, idiv_col, col_update.
  rewrite !elem_of_cons, elem_of_nil in Hcol.
  destruct Hcol as [->|[->|[->|[->|[->|[]]]]]]; simpl;
    rewrite ?decide_False by done; try done;
    destruct (str_contains "fluct" nm); simpl; by rewrite ?decide_False by done.
Qed.

(** The loop returns exactly when every column it has to rescale exists. *)
Lemma normalize_loop_returns dims nm cols :
  forall (k : nat) (a : ndarray),
    (exists a', normalize_loop dims nm k cols a = Ok a')
    <-> (forall (j : nat) (col : string),
           cols !! j = Some col -> col ∈ ["y"; "z"; "Ux"; "Uy"; "Uz"] ->
           (k + j < shape1 a)%nat).
Proof.
  induction cols as [|col cols IH]; intros k a; simpl.
  - split; [by intros _ j col'|by eexists].
  - destruct (decide (col ∈ ["y"; "z"; "Ux"; "Uy"; "Uz"])) as [Hsp|Hsp].
    + destruct (decide (k < shape1 a)%nat) as [Hk|Hk].
      * rewrite normalize_col_entry_map by done. simpl. rewrite IH. simpl.
        split.
        -- intros H [|j] col' Hj Hc; [lia|].
           specialize (H j col' Hj Hc). lia.
        -- intros H j col' Hj Hc. specialize (H (S j) col' Hj Hc). lia.
      * rewrite normalize_col_out_of_range by done. simpl. split.
        -- by intros [a' Ha'].
        -- intros H. specialize (H 0%nat col eq_refl Hsp). lia.
    + rewrite normalize_col_other by done. simpl. rewrite IH. split.
      * intros H [|j] col' Hj Hc.
        -- simpl in Hj. by injection Hj as ->.
        -- specialize (H j col' Hj Hc). lia.
      * intros H j col' Hj Hc. specialize (H (S j) col' Hj Hc). lia.
Qed.



(** X2: once [normalize] has returned, another call (with either flag)
    returns as well. *)
Theorem normalize_again_returns (self self' : dataset) (reacting reacting' : bool) :
  normalize self reacting = Ok self' ->
  exists self'', normalize self' reacting' = Ok self''.
Proof.
  intros Hrun. unfold normalize in *.
  destruct (is_simulation self) eqn:Hsim; [|done].
  destruct (normalize_loop _ _ _ _ (data self)) as [a'|] eqn:Hloop; [|done].
  simpl in Hrun. injection Hrun as <-. simpl.
  destruct (normalize_loop_wf _ _ _ _ _ _ Hloop) as (_ & H1 & _).
  assert (Hret : exists a'', normalize_loop (dimensions_init reacting) (name self)
                               0 (columns self) (data self) = Ok a'')
    by (by eexists).
  pose proof (proj1 (normalize_loop_returns _ _ _ _ _) Hret) as Hcols.
  destruct (proj2 (normalize_loop_returns (dimensions_init reacting') (name self)
                     (columns self) 0 a')) as [a'' Ha''].
  { intros j col Hj Hc. rewrite H1. by apply (Hcols j col). }
  rewrite Ha''. by eexists.
Qed.

Lemma normalize_again_returns_witness :
  exists once twice,
    normalize y_sample false = Ok once /\ normalize once true = Ok twice.
Proof.
  destruct (normalize_again_returns y_sample _ false true eq_refl)
    as [twice Htwice].
  eexists _, twice. split; [reflexivity|exact Htwice].
Defined.

(** ** Columns normalize does not touch, and the part the flag plays *)

Lemma normalize_loop_no_special dims nm cols :
  Forall (fun col => col ∉ ["y"; "z"; "Ux"; "Uy"; "Uz"]) cols ->
  forall (k : nat) (a : ndarray), normalize_loop dims nm k cols a = Ok a.
Proof.
  induction 1 as [|col cols Hcol _ IH]; intros k a; simpl; [done|].
  rewrite normalize_col_other by done. simpl. apply IH.
Qed.

(** X3: a simulation dataset none of whose columns is named [y], [z],
    [Ux], [Uy] or [Uz] is returned by [normalize] as it is, whatever the
    shape of its array. *)
Theorem normalize_without_special_columns (self : dataset) (reacting : bool) :
  is_simulation self = true ->
  Forall (fun col => col ∉ ["y"; "z"; "Ux"; "Uy"; "Uz"]) (columns self) ->
  normalize self reacting = Ok self.
Proof.
  intros Hsim Hcols. unfold normalize. rewrite Hsim.
  rewrite normalize_loop_no_special by done. simpl.
  destruct self; simpl in *. by subst.
Qed.

Lemma normalize_without_special_columns_witness :
  normalize scalar_sample true = Ok scalar_sample.
Proof.
  apply normalize_without_special_columns; [reflexivity|].
  repeat constructor; set_unfold; intros H;
    repeat (destruct H as [H|H]; [discriminate H|]); done.
Defined.

Lemma normalize_col_flag_irrelevant nm i col a :
  col ∉ ["Ux"; "Uy"; "Uz"] ->
  normalize_col (dimensions_init true) nm i col a
  = normalize_col (dimensions_init false) nm i col a.
Proof.
  intros Hcol. unfold normalize_col.
  destruct (bool_decide (col ∈ ["y"; "z"])) eqn:Hyz.
  - apply bool_decide_eq_true_1 in Hyz.
    rewrite !elem_of_cons, elem_of_nil in Hyz.
    by destruct Hyz as [->|[->|[]]].
  - by rewrite bool_decide_eq_false_2.
Qed.

(** X4: the reacting flag matters to velocity columns only: on a dataset
    without a column named [Ux], [Uy] or [Uz], [normalize] gives the same
    result for both flags. *)
Theorem normalize_flag_irrelevant_without_velocity (self : dataset) :
  Forall (fun col => col ∉ ["Ux"; "Uy"; "Uz"]) (columns self) ->
  normalize self true = normalize self false.
Proof.
  intros Hcols. unfold normalize. destruct (is_simulation self); [|done].
  cbv zeta. f_equal.
  generalize 0%nat (data self). induction Hcols as [|col cols Hcol _ IH];
    intros k a; simpl; [done|].
  rewrite normalize_col_flag_irrelevant by done.
  destruct (normalize_col (dimensions_init false) (name self) k col a); simpl;
    [apply IH|done].
Qed.

Lemma normalize_flag_irrelevant_without_velocity_witness :
  normalize y_sample true = normalize y_sample false.
Proof.
  apply normalize_flag_irrelevant_without_velocity.
  repeat constructor. set_unfold. intros H.
  repeat (destruct H as [H|H]; [discriminate H|]). done.
Defined.

(** X5: two calls of [normalize] in a row rescale a [y] or [z] column
    twice: a value [v] ends as [((v - o) * f / D - o) * f / D]. *)
Theorem normalize_twice_spatial (self : dataset) (reacting reacting' : bool) :
  is_simulation self = true -> dataset_inv self ->
  exists once twice,
    normalize self reacting = Ok once
    /\ normalize once reacting' = Ok twice
    /\ forall (i : nat) (col : string) (r : nat),
         columns self !! i = Some col -> col ∈ ["y"; "z"] ->
         let dims := dimensions_init reacting in
         let o := axis_offset dims col in
         let f := axis_flip dims col in
         entry (data twice) r i =
         (fun v => ((v - o) * f / D dims - o) * f / D dims)
           <$> entry (data self) r i.
Proof.
  intros Hsim Hinv.
  destruct (normalize_ok self reacting Hsim Hinv)
    as (a1 & Hrun1 & _ & Hs1 & _ & He1).
  set (once := {| columns := columns self; data := a1; name := name self;
                  is_simulation := is_simulation self |}) in *.
  destruct (normalize_ok once reacting' Hsim) as (a2 & Hrun2 & _ & _ & _ & He2).
  { unfold dataset_inv in *. simpl. congruence. }
  eexists once, _. split; [done|]. split; [exact Hrun2|]. simpl.
  intros i col r Hcol Hyz. rewrite He2, He1. simpl. rewrite Hcol.
  unfold entry_map. rewrite !bool_decide_eq_true_2 by done.
  rewrite !elem_of_cons, elem_of_nil in Hyz.
  destruct (entry (data self) r i) as [v|]; [|done]. simpl.
  by destruct Hyz as [->|[->|[]]], reacting, reacting'.
Qed.

Lemma normalize_twice_spatial_witness :
  exists once twice,
    normalize y_sample false = Ok once
    /\ normalize once false = Ok twice
    /\ entry (data twice) 0 0 = Some 23.500000000000004.
Proof.
  destruct (normalize_twice_spatial y_sample false false eq_refl eq_refl)
    as (once & twice & H1 & H2 & He).
  exists once, twice. split; [done|]. split; [done|].
  rewrite (He 0%nat "y" 0%nat eq_refl); [reflexivity|].
  apply list_elem_of_here.
Defined.

(** ** Indexing *)

Lemma norm_index_in_range n i :
  (- Z.of_nat n <= i < Z.of_nat n)%Z ->
  exists k, norm_index n i = Ok k /\ (k < n)%nat.
Proof.
  intros Hi. unfold norm_index. case_decide; [eexists; split; [done|lia]|].
  rewrite decide_True by lia. eexists; split; [done|lia].
Qed.

Lemma norm_index_out_of_range n i :
  ~ (- Z.of_nat n <= i < Z.of_nat n)%Z -> norm_index n i = Raise IndexError.
Proof. intros Hi. unfold norm_index. by rewrite !decide_False by lia. Qed.

Lemma norm_index_negative n i :
  (0 <= i < Z.of_nat n)%Z -> norm_index n (i - Z.of_nat n) = norm_index n i.
Proof.
  intros Hi. unfold norm_index.
  rewrite (decide_False (P := (0 <= i - Z.of_nat n < Z.of_nat n)%Z)) by lia.
  rewrite decide_True by lia. rewrite (decide_True (P := (0 <= i < _)%Z)) by lia.
  do 2 f_equal. lia.
Qed.

(** On an array whose rows agree with its shape, the column [c] is the
    list of the entries [a[r, c]]. *)
Lemma column_entries a c :
  ndarray_wf a -> (c < shape1 a)%nat ->
  exists l,
    mapM (fun row : list float => row !! c) (rows a) = Some l
    /\ length l = shape0 a
    /\ forall r, l !! r = entry a r c.
Proof.
  intros [Hlen Hrows] Hc.
  destruct (mapM_is_Some_2 (fun row : list float => row !! c) (rows a)) as [l Hl].
  { eapply Forall_impl; [exact Hrows|]. intros row Hrow. simpl in *.
    apply lookup_lt_is_Some_2. by rewrite Hrow. }
  exists l. split; [done|].
  apply mapM_Some_1 in Hl.
  split; [by rewrite <- (Forall2_length _ _ _ Hl)|].
  intros r. unfold entry.
  destruct (rows a !! r) as [row|] eqn:Hr; simpl.
  - destruct (Forall2_lookup_l _ _ _ _ _ Hl Hr) as (y & Hy & Hrow). congruence.
  - apply lookup_ge_None. apply lookup_ge_None in Hr.
    by rewrite <- (Forall2_length _ _ _ Hl).
Qed.





Lemma ndarray_setitem_frame k x a a' :
  ndarray_wf a -> ndarray_setitem k x a = Ok a' ->
  forall r c, ~ selects a k r c -> entry a' r c = entry a r c.
Proof.
  intros [Hlen Hrows].
  assert (Hrow : forall i,
            (r0 ← norm_index (shape0 a) i;
             l ← broadcast x (shape1 a);
             Ok (with_rows a (<[r0 := l]> (rows a)))) = Ok a' ->
            forall r c, norm_index (shape0 a) i <> Ok r ->
                        entry a' r c = entry a r c).
  { intros i. destruct (norm_index (shape0 a) i) as [r0|]; simpl; [|done].
    destruct (broadcast x (shape1 a)) as [l|]; simpl; [|done].
    intros [= <-] r c Hr. unfold entry. simpl.
    rewrite list_lookup_insert_ne by congruence. done. }
  destruct k as [[i|]|[i|] [j|]]; simpl.
  - apply Hrow.
  - intros _ r c H. by destruct H.
  - destruct (norm_index (shape0 a) i) as [r0|]; simpl; [|done].
    destruct (norm_index (shape1 a) j) as [c0|]; simpl; [|done].
    destruct (broadcast x 1) as [[|v [|]]|]; simpl; try done.
    intros [= <-] r c Hsel. unfold entry. simpl.
    destruct (decide (r0 = r)) as [->|Hr].
    + rewrite list_lookup_alter_eq.
      destruct (rows a !! r) as [row|]; simpl; [|done].
      apply list_lookup_insert_ne. intros ->. by apply Hsel.
    + by rewrite list_lookup_alter_ne.
  - apply Hrow.
  - destruct (norm_index (shape1 a) j) as [c0|]; simpl; [|done].
    destruct (broadcast x (shape0 a)) as [l|] eqn:Hl; simpl; [|done].
    apply broadcast_length in Hl.
    intros [= <-] r c Hsel. unfold entry. simpl. rewrite lookup_zip_with.
    destruct (rows a !! r) as [row|] eqn:Hr; simpl; [|done].
    destruct (lookup_lt_is_Some_2 l r) as [v Hv].
    { apply lookup_lt_Some in Hr. lia. }
    rewrite Hv. simpl. apply list_lookup_insert_ne. congruence.
  - intros _ r c H. by destruct H.
Qed.

(** X7: [self[key] = value] changes no entry outside the selection of the
    key, and leaves the column names, the name and the simulation flag as
    they are. *)
Theorem setitem_frame (self self' : dataset) (k : key) (x : rhs) :
  ndarray_wf (data self) -> setitem self k x = Ok self' ->
  columns self' = columns self /\ name self' = name self
  /\ is_simulation self' = is_simulation self
  /\ forall r c : nat,
       ~ selects (data self) k r c ->
       entry (data self') r c = entry (data self) r c.
Proof.
  intros Hwf. unfold setitem.
  destruct (ndarray_setitem k x (data self)) as [a'|] eqn:Hset; simpl; [|done].
  intros [= <-]. simpl. repeat split; try done.
  by apply (ndarray_setitem_frame k x).
Qed.

Lemma setitem_frame_witness :
  exists self',
    setitem profile_sample (Key2 All (Idx (-1))) (Scalar (VInt 0)) = Ok self'
    /\ entry (data self') 2 2 = Some 101325.
Proof.
  eexists. split; [reflexivity|].
  assert (Hwf : ndarray_wf (data profile_sample)).
  { split; [reflexivity|]. by repeat constructor. }
  destruct (setitem_frame profile_sample _ (Key2 All (Idx (-1)))
              (Scalar (VInt 0)) Hwf eq_refl) as (_ & _ & _ & Hent).
  rewrite (Hent 2%nat 2%nat); [reflexivity|]. simpl. discriminate.
Defined.

(** X8: a column index [c] outside [-n .. n - 1], [n] being the number of
    columns, makes [self[:, c]] and [self[:, c] = value] raise
    [IndexError]; the index [c - n] selects the same column as [c]; and on
    an array whose rows agree with its shape every index in range reads a
    column with one value per row. *)
Theorem column_index_bounds (self : dataset) (c : Z) (x : rhs) :
  let n := Z.of_nat (shape1 (data self)) in
  (~ (- n <= c < n)%Z ->
   getitem self (Key2 All (Idx c)) = Raise IndexError
   /\ setitem self (Key2 All (Idx c)) x = Raise IndexError)
  /\ ((0 <= c < n)%Z ->
      getitem self (Key2 All (Idx (c - n))) = getitem self (Key2 All (Idx c))
      /\ setitem self (Key2 All (Idx (c - n))) x
         = setitem self (Key2 All (Idx c)) x)
  /\ (ndarray_wf (data self) -> (- n <= c < n)%Z ->
      exists l, getitem self (Key2 All (Idx c)) = Ok (Vec l)
                /\ length l = shape0 (data self)).
Proof.
  intros n. unfold getitem, setitem. simpl. split; [|split].
  - intros Hc. by rewrite norm_index_out_of_range.
  - intros Hc. by rewrite norm_index_negative.
  - intros Hwf Hc.
    destruct (norm_index_in_range _ _ Hc) as (c0 & -> & Hc0). simpl.
    destruct (column_entries _ _ Hwf Hc0) as (l & -> & Hlen & _).
    by exists l.
Qed.

Lemma column_index_bounds_witness :
  getitem profile_sample (Key2 All (Idx 5)) = Raise IndexError
  /\ getitem profile_sample (Key2 All (Idx (-4)))
     = getitem profile_sample (Key2 All (Idx 1))
  /\ exists l, getitem profile_sample (Key2 All (Idx 1)) = Ok (Vec l)
               /\ length l = 3%nat.
Proof.
  pose proof (column_index_bounds profile_sample 5 (Scalar (VInt 0))) as (H5 & _).
  pose proof (column_index_bounds profile_sample 1 (Scalar (VInt 0)))
    as (_ & Hneg & Hin).
  split; [|split].
  - apply H5. simpl. lia.
  - apply Hneg. simpl. lia.
  - apply Hin; [|simpl; lia]. split; [reflexivity|]. by repeat constructor.
Defined.

(** X9: what a plot reads after normalising: on a simulation dataset that
    satisfies the invariant and whose rows agree with the shape, column
    [i] read after [normalize] is column [i] read before it with the entry
    map of its name applied to every value. *)
Theorem normalize_then_column (self : dataset) (reacting : bool) (i : nat)
    (col : string) (l : list float) :
  is_simulation self = true -> dataset_inv self -> ndarray_wf (data self) ->
  columns self !! i = Some col ->
  getitem self (Key2 All (Idx (Z.of_nat i))) = Ok (Vec l) ->
  exists self',
    normalize self reacting = Ok self'
    /\ getitem self' (Key2 All (Idx (Z.of_nat i)))
       = Ok (Vec (entry_map (dimensions_init reacting) (name self) col <$> l)).
Proof.
  intros Hsim Hinv Hwf Hcol Hget.
  assert (Hi : (i < shape1 (data self))%nat).
  { rewrite <- Hinv. by apply lookup_lt_Some in Hcol. }
  assert (Hidx : forall n, (i < n)%nat -> norm_index n (Z.of_nat i) = Ok i).
  { intros n Hn. unfold norm_index. rewrite decide_True by lia.
    by rewrite Nat2Z.id. }
  destruct (normalize_ok self reacting Hsim Hinv)
    as (a' & Hrun & H0 & H1 & _ & He).
  assert (Hwf' : ndarray_wf a').
  { revert Hrun. unfold normalize. rewrite Hsim.
    destruct (normalize_loop _ _ _ _ _) as [a''|] eqn:Hloop; simpl; [|done].
    intros [= ->]. by apply (normalize_loop_wf _ _ _ _ _ _ Hloop). }
  eexists. split; [exact Hrun|]. unfold getitem in *. simpl in *.
  rewrite Hidx in Hget by done. rewrite Hidx by lia. simpl in *.
  destruct (column_entries _ _ Hwf Hi) as (l0 & Hl0 & Hlen0 & Hent0).
  rewrite Hl0 in Hget. injection Hget as ->.
  destruct (column_entries a' i Hwf') as (l' & -> & Hlen' & Hent'); [lia|].
  do 2 f_equal. apply list_eq. intros r.
  by rewrite Hent', He, Hcol, list_lookup_fmap, Hent0.
Qed.

Lemma normalize_then_column_witness :
  exists self',
    normalize profile_sample true = Ok self'
    /\ getitem self' (Key2 All (Idx 3)) = Ok (Vec [-10; -80; -0]).
Proof.
  assert (Hwf : ndarray_wf (data profile_sample)).
  { split; [reflexivity|]. by repeat constructor. }
  destruct (normalize_then_column profile_sample true 3 "z" [0.2; 3; -0.2]
              eq_refl eq_refl Hwf eq_refl eq_refl) as (self' & Hrun & Hget).
  exists self'. split; [exact Hrun|]. exact Hget.
Defined.

(** ** UserOptions after construction *)

Lemma react_str_subdir (path : string) (r : bool) :
  let d := if r then "reacting" else "non-reacting" in
  exists X : string,
    (forall r' : bool,
       join2 path (if r' then "reacting" else "non-reacting")
       = X +:+ (if r' then "reacting" else "non-reacting"))
    /\ join2 path d <> "" /\ endswith_sep (join2 path d) = false.
Proof.
  intros d.
  exists (if bool_decide (path = "") || endswith_sep path then path
          else path +:+ "/").
  assert (Hjoin : forall r' : bool,
            join2 path (if r' then "reacting" else "non-reacting")
            = (if bool_decide (path = "") || endswith_sep path then path
               else path +:+ "/")
              +:+ (if r' then "reacting" else "non-reacting")).
  { intros r'. unfold join2.
    replace (startswith (if r' then "reacting" else "non-reacting") "/")
      with false by (by destruct r').
    destruct (_ || _); [done|]. by rewrite app_assoc_str. }
  split; [exact Hjoin|]. unfold d. rewrite Hjoin. split.
  - destruct (if _ || _ then _ else _); by destruct r.
  - rewrite endswith_sep_app by (by destruct r). by destruct r.
Qed.

Lemma UserOptions_init_fields env cs r t0 t1 bp op vc :
  let self := UserOptions_init env cs r t0 t1 bp op vc in
  base_path self = Some (resolve_cases env bp r cs).1
  /\ cases self = (resolve_cases env bp r cs).2
  /\ reacting self = r.
Proof.
  unfold UserOptions_init. by destruct (resolve_cases env bp r cs).
Qed.

Lemma resolve_cases_isabs env bp r cs :
  isabs (getcwd env) = true ->
  isabs (resolve_cases env bp r cs).1 = true
  /\ Forall (fun p => isabs p = true) (resolve_cases env bp r cs).2.
Proof.
  intros Hcwd. unfold resolve_cases, pjoin. simpl.
  assert (Hroot : forall b : string,
            isabs (join2 (abspath env b) (if r then "reacting" else "non-reacting"))
            = true).
  { intros b. by apply join2_isabs, abspath_isabs. }
  split.
  - destruct bp as [p|]; [destruct (bool_decide (p = ""))|]; apply Hroot.
  - apply Forall_fmap, Forall_true. intros case. simpl. apply join2_isabs.
    destruct bp as [p|]; [destruct (bool_decide (p = ""))|]; apply Hroot.
Qed.

(** X10: on constructed options, [get_simulation_path] either returns an
    absolute path that is a directory or raises the not-found [Exception];
    it raises nothing else. *)
Theorem get_simulation_path_constructed (env : os_env) (cs : list string)
    (r : bool) (t0 t1 : value) (bp op : option string) (vc case g : string) :
  isabs (getcwd env) = true ->
  let self := UserOptions_init env cs r t0 t1 bp op vc in
  (exists p, get_simulation_path env self case g = Ok p
             /\ isdir env p = true /\ isabs p = true)
  \/ (exists msg, get_simulation_path env self case g = Raise (Exception msg)).
Proof.
  intros Hcwd self.
  destruct (UserOptions_init_fields env cs r t0 t1 bp op vc) as (Hbp & _ & _).
  fold self in Hbp. unfold get_simulation_path. rewrite Hbp.
  destruct (isdir env _) eqn:Hdir; simpl.
  - left. eexists. split; [done|]. split; [done|]. by apply abspath_isabs.
  - right. by eexists.
Qed.

Lemma get_simulation_path_constructed_witness :
  (exists p, get_simulation_path posix_env sample_options "coarse"
               "axialDeficitPlot_0point95" = Ok p
             /\ isdir posix_env p = true /\ isabs p = true)
  \/ (exists msg, get_simulation_path posix_env sample_options "coarse"
                    "axialDeficitPlot_0point95" = Raise (Exception msg)).
Proof.
  apply (get_simulation_path_constructed posix_env ["coarse"; "fine"] true
           (VInt 0) (VInt (-1)) (Some "/data/les") None "both").
  reflexivity.
Defined.

(** X11: for an absolute case, such as the paths kept in [self.cases],
    [get_simulation_path] does not use the base path: the directory it
    looks for is [case/postProcessing/graph_name] made absolute. *)
Theorem get_simulation_path_absolute_case (env : os_env) (self : UserOptions)
    (bp case g : string) :
  base_path self = Some bp -> isabs case = true ->
  let p := abspath env (pjoin case ["postProcessing"; g]) in
  get_simulation_path env self case g =
  if isdir env p then Ok p
  else Raise (Exception (not_found_message g
                (if reacting self then "reacting" else "non-reacting") case p)).
Proof.
  intros Hbp Hcase p. unfold get_simulation_path. rewrite Hbp.
  unfold p, pjoin. simpl. rewrite (join2_absolute bp case) by done.
  by destruct (isdir env _).
Qed.

Lemma get_simulation_path_absolute_case_witness :
  get_simulation_path posix_env sample_options "/data/les/reacting/coarse"
    "axialDeficitPlot_0point95"
  = Ok "/data/les/reacting/coarse/postProcessing/axialDeficitPlot_0point95".
Proof.
  rewrite (get_simulation_path_absolute_case posix_env sample_options
             "/data/les/reacting" "/data/les/reacting/coarse"
             "axialDeficitPlot_0point95" eq_refl eq_refl).
  reflexivity.
Defined.

(** X12: the paths kept by the constructor are stable: calling
    [get_cases] on constructed options returns [self.cases] unchanged. *)
Theorem get_cases_again (env : os_env) (cs : list string) (r : bool)
    (t0 t1 : value) (bp op : option string) (vc : string) :
  isabs (getcwd env) = true ->
  let self := UserOptions_init env cs r t0 t1 bp op vc in
  (get_cases env self).1 = cases self.
Proof.
  intros Hcwd self.
  destruct (UserOptions_init_fields env cs r t0 t1 bp op vc) as (_ & Hcases & _).
  fold self in Hcases.
  destruct (resolve_cases_isabs env bp r cs Hcwd) as [_ Habs].
  rewrite <- Hcases in Habs. clearbody self.
  unfold get_cases, resolve_cases, pjoin. simpl.
  rewrite <- (list_fmap_id (cases self)) at 2.
  apply Forall_fmap_ext. eapply Forall_impl; [exact Habs|].
  intros p Hp. simpl. by apply join2_absolute.
Qed.

Lemma get_cases_again_witness :
  (get_cases posix_env sample_options).1
  = ["/data/les/reacting/coarse"; "/data/les/reacting/fine"].
Proof.
  exact (get_cases_again posix_env ["coarse"; "fine"] true (VInt 0)
           (VInt (-1)) (Some "/data/les") None "both" eq_refl).
Defined.

(** X13: case names that do not begin with a slash are resolved to
    different paths whenever they are different names. *)
Theorem get_cases_relative_injective (env : os_env) (self : UserOptions)
    (i j : nat) (c1 c2 : string) :
  cases self !! i = Some c1 -> cases self !! j = Some c2 ->
  startswith c1 "/" = false -> startswith c2 "/" = false ->
  (get_cases env self).1 !! i = (get_cases env self).1 !! j ->
  c1 = c2.
Proof.
  intros H1 H2 Hr1 Hr2. unfold get_cases, resolve_cases, pjoin. simpl.
  rewrite !list_lookup_fmap, H1, H2. simpl.
  match goal with
  | |- context [join2 ?B (if reacting self then _ else _)] => set (A := B)
  end.
  destruct (react_str_subdir A (reacting self)) as (X & _ & Hne & Hend).
  simpl in Hne, Hend.
  rewrite (join2_relative _ c1), (join2_relative _ c2) by done. intros [= Heq].
  apply (inj (String.append _)) in Heq.
  by apply (inj (String.append "/")) in Heq.
Qed.

Lemma get_cases_relative_injective_witness :
  "coarse" = "coarse".
Proof.
  apply (get_cases_relative_injective posix_env
           {| cases := ["coarse"; "coarse"]; reacting := true;
              t_start := VInt 0; t_end := VInt (-1);
              base_path := None; out_path := None;
              velocity_component := ["z"; "y"];
              style := PlotStyles_init [] false |} 0 1);
    reflexivity.
Defined.

(** X14: a case name that does not begin with a slash is resolved to
    different paths for the reacting and the non-reacting flag. *)
Theorem reacting_and_non_reacting_paths_differ (env : os_env)
    (bp : option string) (cs : list string) (i : nat) (c p1 p2 : string) :
  cs !! i = Some c -> startswith c "/" = false ->
  (resolve_cases env bp true cs).2 !! i = Some p1 ->
  (resolve_cases env bp false cs).2 !! i = Some p2 ->
  p1 <> p2.
Proof.
  intros Hc Hrel. unfold resolve_cases, pjoin. simpl.
  rewrite !list_lookup_fmap, Hc. simpl.
  match goal with
  | |- context [join2 ?B "reacting"] => set (A := B)
  end.
  destruct (react_str_subdir A true) as (X & HX & Hne1 & Hend1).
  destruct (react_str_subdir A false) as (_ & _ & Hne2 & Hend2).
  simpl in *.
  rewrite !(join2_relative _ c) by done.
  rewrite (HX true), (HX false). intros [= <-] [= <-] Heq.
  rewrite !app_assoc_str in Heq.
  apply (inj (String.append X)) in Heq. discriminate Heq.
Qed.

Lemma reacting_and_non_reacting_paths_differ_witness :
  "/data/les/reacting/coarse" <> "/data/les/non-reacting/coarse".
Proof.
  apply (reacting_and_non_reacting_paths_differ posix_env (Some "/data/les")
           ["coarse"] 0 "coarse"); reflexivity.
Defined.



(** ** Constructing and normalising *)


